(** * afpacket: TPACKET header views over the mmap'ed ring

    A shallow embedding of [afpacket]'s header code (the [header] interface,
    its three implementations over the kernel's v1/v2/v3 ring layouts, the
    alignment helper and the VLAN re-insertion helper) and the properties the
    specification states about it.

    Conventions of the embedding.

    - Target: GOARCH=amd64. [int], [uint] and [uintptr] are 64 bits wide and
      memory is little-endian.  The source itself fixes this choice: the
      hand-written [V1header] declares [Status uint64] where the kernel has
      [unsigned long tp_status].
    - Machine integers are mathematical integers ([Z]) kept in range by the
      conversions [to_uint32], [to_int], ... which write the wrap-around out.
    - The ring is raw memory: a total map from addresses to bytes.  A Go
      pointer to a header struct is the address of its first byte and a field
      access [h.Len] is a load at the field's offset, as the [unsafe] casts of
      the source make it.
    - A method with a pointer receiver that mutates the receiver returns the
      new receiver; one that writes through a pointer returns the new memory.
    - Code that may panic returns a [result]. *)

From Stdlib Require Import ZArith List Bool Lia.
From Stdlib Require Import Strings.Byte.
Import ListNotations.
Local Open Scope Z_scope.

(** ** Machine integers *)

Definition to_unsigned (bits x : Z) : Z := x mod 2 ^ bits.
Definition to_signed (bits x : Z) : Z :=
  (x + 2 ^ (bits - 1)) mod 2 ^ bits - 2 ^ (bits - 1).

Definition to_uint32 : Z -> Z := to_unsigned 32.
Definition to_int64 : Z -> Z := to_signed 64.
(** [uint], [uintptr] and [int] on amd64. *)
Definition to_uint : Z -> Z := to_unsigned 64.
Definition to_uintptr : Z -> Z := to_unsigned 64.
Definition to_int : Z -> Z := to_signed 64.

Definition maxInt : Z := 2 ^ 63 - 1.
Definition minInt : Z := - 2 ^ 63.
Definition maxUint32 : Z := 2 ^ 32 - 1.

(** ** Alignment

<<
const tpacketAlignment = uint(unix.TPACKET_ALIGNMENT)

func tpAlign(x int) int {
	return int((uint(x) + tpacketAlignment - 1) &^ (tpacketAlignment - 1))
}
>>
    [unix.TPACKET_ALIGNMENT] is [0x10] in golang.org/x/sys/unix.  [&^] is
    bit clear, [Z.ldiff]. *)

Definition tpacketAlignment : Z := to_uint 16.

Definition tpAlign (x : Z) : Z :=
  to_int (Z.ldiff (to_uint (to_uint (to_uint x + tpacketAlignment) - 1))
                  (to_uint (tpacketAlignment - 1))).

(** [r] is the smallest multiple of [a] that is at least [x]. *)
Definition least_multiple_ge (a x r : Z) : Prop :=
  (a | r) /\ x <= r /\ forall m, (a | m) -> x <= m -> r <= m.

(** ** Raw memory

    The mmap'ed ring and the Go heap share one address space.  Multi-byte
    fields are little-endian. *)

Definition uintptr := Z.
Definition mem := uintptr -> byte.

Definition Z_of_byte (b : byte) : Z := Z.of_N (Byte.to_N b).
Definition byte_of_Z (v : Z) : byte :=
  match Byte.of_N (Z.to_N (v mod 256)) with
  | Some b => b
  | None => x00
  end.

Fixpoint load_le (n : nat) (m : mem) (a : uintptr) : Z :=
  match n with
  | O => 0
  | S n' => Z_of_byte (m a) + 256 * load_le n' m (a + 1)
  end.

Definition store8 (m : mem) (a : uintptr) (v : Z) : mem :=
  fun x => if x =? a then byte_of_Z v else m x.

Fixpoint store_le (n : nat) (m : mem) (a : uintptr) (v : Z) : mem :=
  match n with
  | O => m
  | S n' => store_le n' (store8 m a v) (a + 1) (v / 256)
  end.

Definition load16 : mem -> uintptr -> Z := load_le 2.
Definition load32 : mem -> uintptr -> Z := load_le 4.
Definition load64 : mem -> uintptr -> Z := load_le 8.
Definition store32 : mem -> uintptr -> Z -> mem := store_le 4.
Definition store64 : mem -> uintptr -> Z -> mem := store_le 8.

Fixpoint load_bytes (m : mem) (a : uintptr) (n : nat) : list byte :=
  match n with
  | O => []
  | S n' => m a :: load_bytes m (a + 1) n'
  end.

Fixpoint store_bytes (m : mem) (a : uintptr) (bs : list byte) : mem :=
  match bs with
  | [] => m
  | b :: bs' => store_bytes (fun x => if x =? a then b else m x) (a + 1) bs'
  end.

(** Memory holding [bs] from address [a] on and zero elsewhere. *)
Definition mem_of_bytes (a : uintptr) (bs : list byte) : mem :=
  store_bytes (fun _ => x00) a bs.

(** ** The Go runtime: panics, slices, [make] and [append] *)

(** The runtime's bounds errors for a slice expression, as [runtime.boundsError]
    reports them: [s[:x]] with capacity [y], and [s[x:y]]. *)
Inductive panic : Type :=
| boundsSliceAcap (x y : Z)
| boundsSliceB (x y : Z)
| makesliceCap.

Inductive result (A : Type) : Type :=
| Ok (a : A)
| Panic (p : panic).
Arguments Ok {A} a.
Arguments Panic {A} p.

(** The heap: the bytes of the address space and the allocation frontier. *)
Record heap : Type := mkHeap { bytes : mem; brk : uintptr }.

Definition Go (A : Type) : Type := heap -> result (A * heap).

Definition ret {A : Type} (a : A) : Go A := fun h => Ok (a, h).
Definition throw {A : Type} (p : panic) : Go A := fun _ => Panic p.
Definition bind {A B : Type} (c : Go A) (k : A -> Go B) : Go B :=
  fun h => match c h with
           | Ok (a, h') => k a h'
           | Panic p => Panic p
           end.

Notation "x <- c ;; k" := (bind c (fun x => k))
  (at level 61, c at next level, right associativity).

(** [reflect.SliceHeader]. *)
Record slice : Type := mkSlice { Data : uintptr; Len : Z; Cap : Z }.

(** The elements of [s] as memory [m] holds them. *)
Definition slice_bytes (m : mem) (s : slice) : list byte :=
  load_bytes m (Data s) (Z.to_nat (Len s)).

Definition read (s : slice) : Go (list byte) :=
  fun h => Ok (slice_bytes (bytes h) s, h).

(** [make([]byte, 0, n)]: a zeroed array of [n] bytes at the frontier. *)
Definition make_bytes (n : Z) : Go slice :=
  fun h =>
    if n <? 0 then Panic makesliceCap
    else Ok (mkSlice (brk h) 0 n,
             mkHeap (store_bytes (bytes h) (brk h) (repeat x00 (Z.to_nat n)))
                    (brk h + n)).

(** [s[lo:hi]]: the bounds are checked against the capacity. *)
Definition slice_lo_hi (s : slice) (lo hi : Z) : Go slice :=
  if (hi <? 0) || (Cap s <? hi) then throw (boundsSliceAcap hi (Cap s))
  else if (lo <? 0) || (hi <? lo) then throw (boundsSliceB lo hi)
  else ret (mkSlice (Data s + lo) (hi - lo) (Cap s - lo)).

(** [s[lo:]]: the upper bound is the length. *)
Definition slice_lo (s : slice) (lo : Z) : Go slice :=
  if (lo <? 0) || (Len s <? lo) then throw (boundsSliceB lo (Len s))
  else ret (mkSlice (Data s + lo) (Len s - lo) (Cap s - lo)).

(** [append(s, xs...)]: in place when the capacity allows, else into a new
    array at the frontier (the runtime may give the new array more room than
    asked; no capacity past the length is ever read below). *)
Definition append (s : slice) (xs : list byte) : Go slice :=
  fun h =>
    let n := Len s + Z.of_nat (length xs) in
    if n <=? Cap s then
      Ok (mkSlice (Data s) n (Cap s),
          mkHeap (store_bytes (bytes h) (Data s + Len s) xs) (brk h))
    else
      Ok (mkSlice (brk h) n n,
          mkHeap (store_bytes (bytes h) (brk h) (slice_bytes (bytes h) s ++ xs))
                 (brk h + n)).

(** <<
func makeSlice(start uintptr, length int) (data []byte) {
	slice := ( *reflect.SliceHeader)(unsafe.Pointer(&data))
	slice.Data = start
	slice.Len = length
	slice.Cap = length
	return
}
>> *)
Definition makeSlice (start : uintptr) (length : Z) : slice :=
  mkSlice start length length.

(** ** VLAN re-insertion *)

Definition VlanHlen : Z := 4.
Definition EthAlen : Z := 6.
Definition StatusVlanValid : Z := 0x10.

(** Modelled from the spec: the [options] struct is declared outside this
    file; the one option read here is "[addVlanHeader: bool] -- enables
    VLAN-tag synthesis in payload()". *)
Record options : Type := mkOptions { addVLANHeader : bool }.

(** <<
func insertVlanHeader(data []byte, vlanTCI int, opts *options) []byte {
	if vlanTCI == 0 || !opts.addVLANHeader {
		return data
	}
	eth := make([]byte, 0, len(data)+VlanHlen)
	eth = append(eth, data[0:EthAlen*2]...)
	eth = append(eth, []byte{0x81, 0, byte((vlanTCI >> 8) & 0xff), byte(vlanTCI & 0xff)}...)
	return append(eth, data[EthAlen*2:]...)
}
>> *)
Definition insertVlanHeader (data : slice) (vlanTCI : Z) (opts : options)
  : Go slice :=
  if (vlanTCI =? 0) || negb (addVLANHeader opts) then ret data
  else
    eth <- make_bytes (to_int (Len data + VlanHlen)) ;;
    hd <- slice_lo_hi data 0 (EthAlen * 2) ;;
    hdb <- read hd ;;
    eth <- append eth hdb ;;
    eth <- append eth [x81; x00;
                       byte_of_Z (Z.land (Z.shiftr vlanTCI 8) 0xff);
                       byte_of_Z (Z.land vlanTCI 0xff)] ;;
    tl <- slice_lo data (EthAlen * 2) ;;
    tlb <- read tl ;;
    append eth tlb.

(** ** [time.Unix]

    The standard library's [time.Unix(sec, nsec)]: the instant [sec] seconds
    and [nsec] nanoseconds after the epoch, [nsec] brought into
    [[0, 999999999]].  A [Time] is kept as that normalised pair. *)
Record Time : Type := mkTime { unixSec : Z; unixNsec : Z }.

Definition time_Unix (sec nsec : Z) : Time :=
  if (nsec <? 0) || (1000000000 <=? nsec) then
    let n := Z.quot nsec 1000000000 in
    let sec := to_int64 (sec + n) in
    let nsec := to_int64 (nsec - to_int64 (n * 1000000000)) in
    if nsec <? 0 then mkTime (to_int64 (sec - 1)) (to_int64 (nsec + 1000000000))
    else mkTime sec nsec
  else mkTime sec nsec.

(** Nanoseconds since the epoch, as a mathematical integer. *)
Definition unixNano (t : Time) : Z := unixSec t * 1000000000 + unixNsec t.

(** ** The trailing link-layer address
<<
type SockAddrLL struct {
	Family   uint16
	Protocol uint16
	Ifindex  int32
	...
>> *)
Module SockAddrLL.
Definition Family (m : mem) (p : uintptr) : Z := load16 m (p + 0).
Definition Protocol (m : mem) (p : uintptr) : Z := load16 m (p + 2).
Definition Ifindex (m : mem) (p : uintptr) : Z := to_signed 32 (load32 m (p + 4)).
End SockAddrLL.

(** ** The [header] interface

<<
type header interface {
	getStatus() int
	clearStatus()
	getTime() time.Time
	getData(opts *options) []byte
	getLength() int
	getIfaceIndex() int
	getVLAN() int
	next() bool
}
>>
    A method reads the ring through the memory it is given; [clearStatus]
    returns the memory it leaves, [next] the receiver it leaves. *)
Class header (H : Type) : Type := {
  getStatus : mem -> H -> Z;
  clearStatus : mem -> H -> mem;
  getTime : mem -> H -> Time;
  getData : options -> H -> Go slice;
  getLength : mem -> H -> Z;
  getIfaceIndex : mem -> H -> Z;
  getVLAN : mem -> H -> Z;
  next : mem -> H -> H * bool
}.

(** ** TPACKET_V1 frames, hand-written layout
<<
type V1header struct {
	Status  uint64
	Len     uint32
	Snaplen uint32
	Mac     uint16
	Net     uint16
	Sec     uint32
	Usec    uint32
	Padding [4]byte
}
>> *)
Module V1header.

(** [*V1header]: the address of the frame. *)
Record ptr : Type := at_ { addr : uintptr }.

Definition Status (m : mem) (h : ptr) : Z := load64 m (addr h + 0).
Definition Len (m : mem) (h : ptr) : Z := load32 m (addr h + 8).
Definition Snaplen (m : mem) (h : ptr) : Z := load32 m (addr h + 12).
Definition Mac (m : mem) (h : ptr) : Z := load16 m (addr h + 16).
Definition Net (m : mem) (h : ptr) : Z := load16 m (addr h + 18).
Definition Sec (m : mem) (h : ptr) : Z := load32 m (addr h + 20).
Definition Usec (m : mem) (h : ptr) : Z := load32 m (addr h + 24).
(** [sizeofV1Hdr = unsafe.Sizeof(V1header{})] *)
Definition sizeofV1Hdr : Z := 32.

Definition getVLAN (m : mem) (h : ptr) : Z := -1.

Definition getStatus (m : mem) (h : ptr) : Z := to_int (Status m h).

Definition clearStatus (m : mem) (h : ptr) : mem := store64 m (addr h + 0) 0.

Definition getTime (m : mem) (h : ptr) : Time :=
  time_Unix (to_int64 (Sec m h)) (to_int64 (to_int64 (Usec m h) * 1000)).

Definition getData (opts : options) (h : ptr) : Go slice :=
  fun hp =>
    let m := bytes hp in
    ret (makeSlice (to_uintptr (to_uintptr (addr h) + to_uintptr (Mac m h)))
                   (to_int (Snaplen m h))) hp.

Definition getLength (m : mem) (h : ptr) : Z := to_int (Len m h).

Definition getIfaceIndex (m : mem) (h : ptr) : Z :=
  let ll := to_uintptr (to_uintptr (addr h)
                        + to_uintptr (tpAlign (to_int sizeofV1Hdr))) in
  to_int (SockAddrLL.Ifindex m ll).

Definition next (m : mem) (h : ptr) : ptr * bool := (h, false).

End V1header.

#[export] Instance V1header_header : header V1header.ptr := {
  getStatus := V1header.getStatus;
  clearStatus := V1header.clearStatus;
  getTime := V1header.getTime;
  getData := V1header.getData;
  getLength := V1header.getLength;
  getIfaceIndex := V1header.getIfaceIndex;
  getVLAN := V1header.getVLAN;
  next := V1header.next
}.

(** ** TPACKET_V2 frames, hand-written layout
<<
type V2header struct {
	Status   uint32
	Len      uint32
	Snaplen  uint32
	Mac      uint16
	Net      uint16
	Sec      uint32
	Nsec     uint32
	VlanTci  uint16
	VlanTpid uint16
	Padding  [4]byte
}
>> *)
Module V2header.

Record ptr : Type := at_ { addr : uintptr }.

Definition Status (m : mem) (h : ptr) : Z := load32 m (addr h + 0).
Definition Len (m : mem) (h : ptr) : Z := load32 m (addr h + 4).
Definition Snaplen (m : mem) (h : ptr) : Z := load32 m (addr h + 8).
Definition Mac (m : mem) (h : ptr) : Z := load16 m (addr h + 12).
Definition Net (m : mem) (h : ptr) : Z := load16 m (addr h + 14).
Definition Sec (m : mem) (h : ptr) : Z := load32 m (addr h + 16).
Definition Nsec (m : mem) (h : ptr) : Z := load32 m (addr h + 20).
Definition VlanTci (m : mem) (h : ptr) : Z := load16 m (addr h + 24).
Definition VlanTpid (m : mem) (h : ptr) : Z := load16 m (addr h + 26).
(** [sizeofV2Hdr = unsafe.Sizeof(V2header{})] *)
Definition sizeofV2Hdr : Z := 32.

Definition getVLAN (m : mem) (h : ptr) : Z := -1.

Definition getStatus (m : mem) (h : ptr) : Z := to_int (Status m h).

Definition clearStatus (m : mem) (h : ptr) : mem := store32 m (addr h + 0) 0.

Definition getTime (m : mem) (h : ptr) : Time :=
  time_Unix (to_int64 (Sec m h)) (to_int64 (Nsec m h)).

Definition getData (opts : options) (h : ptr) : Go slice :=
  fun hp =>
    let m := bytes hp in
    let data := makeSlice (to_uintptr (to_uintptr (addr h) + to_uintptr (Mac m h)))
                          (to_int (Snaplen m h)) in
    insertVlanHeader data (to_int (VlanTci m h)) opts hp.

Definition getLength (m : mem) (h : ptr) : Z := to_int (Len m h).

Definition getIfaceIndex (m : mem) (h : ptr) : Z :=
  let ll := to_uintptr (to_uintptr (addr h)
                        + to_uintptr (tpAlign (to_int sizeofV2Hdr))) in
  to_int (SockAddrLL.Ifindex m ll).

Definition next (m : mem) (h : ptr) : ptr * bool := (h, false).

End V2header.

#[export] Instance V2header_header : header V2header.ptr := {
  getStatus := V2header.getStatus;
  clearStatus := V2header.clearStatus;
  getTime := V2header.getTime;
  getData := V2header.getData;
  getLength := V2header.getLength;
  getIfaceIndex := V2header.getIfaceIndex;
  getVLAN := V2header.getVLAN;
  next := V2header.next
}.

(** ** TPACKET_V3 blocks, hand-written layout
<<
type TpacketHdrVariant1 struct {
	TpRxhash   uint32
	TpVlanTci  uint32
	TpVlanTpid uint16
	Padding    uint16
}

type TpPacket struct {
	TpNextOffset uint32
	Tp_sec       uint32
	Tp_nsec      uint32
	Tp_snaplen   uint32
	Tp_len       uint32
	Tp_status    uint32
	Tp_mac       uint16
	Tp_net       uint16
	Tp_hv1       TpacketHdrVariant1
	Padding      [8]uint8
}
>> *)
Module TpPacket.
Definition TpNextOffset (m : mem) (p : uintptr) : Z := load32 m (p + 0).
Definition Tp_sec (m : mem) (p : uintptr) : Z := load32 m (p + 4).
Definition Tp_nsec (m : mem) (p : uintptr) : Z := load32 m (p + 8).
Definition Tp_snaplen (m : mem) (p : uintptr) : Z := load32 m (p + 12).
Definition Tp_len (m : mem) (p : uintptr) : Z := load32 m (p + 16).
Definition Tp_status (m : mem) (p : uintptr) : Z := load32 m (p + 20).
Definition Tp_mac (m : mem) (p : uintptr) : Z := load16 m (p + 24).
Definition Tp_net (m : mem) (p : uintptr) : Z := load16 m (p + 26).
Definition Tp_hv1_TpRxhash (m : mem) (p : uintptr) : Z := load32 m (p + 28).
Definition Tp_hv1_TpVlanTci (m : mem) (p : uintptr) : Z := load32 m (p + 32).
Definition Tp_hv1_TpVlanTpid (m : mem) (p : uintptr) : Z := load16 m (p + 36).
End TpPacket.

(** <<
type TpBlock struct {
	Version uint32
	ToPriv  uint32
	Hdr     [40]byte
}
>> *)
Module TpBlock.
Definition Version (m : mem) (p : uintptr) : Z := load32 m (p + 0).
Definition ToPriv (m : mem) (p : uintptr) : Z := load32 m (p + 4).
(** [&b.Hdr[0]] *)
Definition Hdr (p : uintptr) : uintptr := p + 8.
End TpBlock.

(** <<
type TpPacketBdTs struct {
	Sec  uint32
	Usec uint32
}

type TpacketHdrV1 struct {
	BlockStatus      uint32
	NumPkts          uint32
	OffsetToFirstPkt uint32
	BlkLen           uint32
	SeqNum           uint64
	TsFirstPkt       TpPacketBdTs
	TsLastPkt        TpPacketBdTs
}
>> *)
Module TpacketHdrV1.
Definition BlockStatus (m : mem) (p : uintptr) : Z := load32 m (p + 0).
Definition NumPkts (m : mem) (p : uintptr) : Z := load32 m (p + 4).
Definition OffsetToFirstPkt (m : mem) (p : uintptr) : Z := load32 m (p + 8).
Definition BlkLen (m : mem) (p : uintptr) : Z := load32 m (p + 12).
Definition SeqNum (m : mem) (p : uintptr) : Z := load64 m (p + 16).
Definition TsFirstPkt_Sec (m : mem) (p : uintptr) : Z := load32 m (p + 24).
Definition TsFirstPkt_Usec (m : mem) (p : uintptr) : Z := load32 m (p + 28).
Definition TsLastPkt_Sec (m : mem) (p : uintptr) : Z := load32 m (p + 32).
Definition TsLastPkt_Usec (m : mem) (p : uintptr) : Z := load32 m (p + 36).
End TpacketHdrV1.

(** <<
type V3header struct {
	Block    *TpBlock
	Blockhdr *TpacketHdrV1
	Packet   *TpPacket
	used     uint32
}
>> *)
Module V3header.

Record t : Type := mk {
  Block : uintptr;
  Blockhdr : uintptr;
  Packet : uintptr;
  used : Z
}.

(** [sizeofV3Hdr = unsafe.Sizeof(V3header{})]: three pointers and a [uint32],
    padded to the pointers' alignment. *)
Definition sizeofV3Hdr : Z := 32.

(** <<
func initV3Wrapper(block unsafe.Pointer) (w V3header) {
	w.Block = ( *TpBlock)(block)
	w.Blockhdr = ( *TpacketHdrV1)(unsafe.Pointer(&w.Block.Hdr[0]))
	w.Packet = ( *TpPacket)(unsafe.Pointer(uintptr(block) + uintptr(w.Blockhdr.OffsetToFirstPkt)))
	return
}
>> *)
Definition initV3Wrapper (m : mem) (block : uintptr) : t :=
  let Block := block in
  let Blockhdr := TpBlock.Hdr Block in
  let Packet :=
    to_uintptr (to_uintptr block
                + to_uintptr (TpacketHdrV1.OffsetToFirstPkt m Blockhdr)) in
  mk Block Blockhdr Packet 0.

(** <<
func (w *V3header) getVLAN() int {
	if w.Packet.Tp_status&StatusVlanValid != 0 {
		return int(w.Packet.Tp_hv1.TpVlanTci & 0xfff)
	}
	return -1
}
>> *)
Definition getVLAN (m : mem) (w : t) : Z :=
  if negb (Z.land (TpPacket.Tp_status m (Packet w)) StatusVlanValid =? 0) then
    to_int (Z.land (TpPacket.Tp_hv1_TpVlanTci m (Packet w)) 0xfff)
  else -1.

Definition getStatus (m : mem) (w : t) : Z :=
  to_int (TpacketHdrV1.BlockStatus m (Blockhdr w)).

Definition clearStatus (m : mem) (w : t) : mem := store32 m (Blockhdr w + 0) 0.

Definition getTime (m : mem) (w : t) : Time :=
  time_Unix (to_int64 (TpPacket.Tp_sec m (Packet w)))
            (to_int64 (TpPacket.Tp_nsec m (Packet w))).

Definition getData (opts : options) (w : t) : Go slice :=
  fun hp =>
    let m := bytes hp in
    let data :=
      makeSlice (to_uintptr (to_uintptr (Packet w)
                             + to_uintptr (TpPacket.Tp_mac m (Packet w))))
                (to_int (TpPacket.Tp_snaplen m (Packet w))) in
    insertVlanHeader data (to_int (TpPacket.Tp_hv1_TpVlanTci m (Packet w))) opts hp.

Definition getLength (m : mem) (w : t) : Z :=
  to_int (TpPacket.Tp_len m (Packet w)).

Definition getIfaceIndex (m : mem) (w : t) : Z :=
  let ll := to_uintptr (to_uintptr (Packet w)
                        + to_uintptr (tpAlign (to_int sizeofV3Hdr))) in
  to_int (SockAddrLL.Ifindex m ll).

(** <<
func (w *V3header) next() bool {
	w.used++
	if w.used >= w.Blockhdr.NumPkts {
		return false
	}

	next := uintptr(unsafe.Pointer(w.Packet))
	if w.Packet.TpNextOffset != 0 {
		next += uintptr(w.Packet.TpNextOffset)
	} else {
		next += uintptr(tpAlign(int(w.Packet.Tp_snaplen) + int(w.Packet.Tp_mac)))
	}
	w.Packet = ( *TpPacket)(unsafe.Pointer(next))
	return true
}
>> *)
Definition next (m : mem) (w : t) : t * bool :=
  let w := mk (Block w) (Blockhdr w) (Packet w) (to_uint32 (used w + 1)) in
  if TpacketHdrV1.NumPkts m (Blockhdr w) <=? used w then (w, false)
  else
    let next := to_uintptr (Packet w) in
    let next :=
      if negb (TpPacket.TpNextOffset m (Packet w) =? 0) then
        to_uintptr (next + to_uintptr (TpPacket.TpNextOffset m (Packet w)))
      else
        to_uintptr
          (next + to_uintptr (tpAlign (to_int (to_int (TpPacket.Tp_snaplen m (Packet w))
                                               + to_int (TpPacket.Tp_mac m (Packet w)))))) in
    (mk (Block w) (Blockhdr w) next (used w), true).

End V3header.

#[export] Instance V3header_header : header V3header.t := {
  getStatus := V3header.getStatus;
  clearStatus := V3header.clearStatus;
  getTime := V3header.getTime;
  getData := V3header.getData;
  getLength := V3header.getLength;
  getIfaceIndex := V3header.getIfaceIndex;
  getVLAN := V3header.getVLAN;
  next := V3header.next
}.

(** ** The cgo-typed variant

    The second implementation declares its headers as the kernel's C structs
    ([TpV1Hdr C.struct_tpacket_hdr], [TpV2Hdr C.struct_tpacket2_hdr],
    [TpV3Packet C.struct_tpacket3_hdr], ...), takes [EtherHdrLen], [VlanHdrLen]
    and [unix.TP_STATUS_VLAN_VALID] for the constants, and is otherwise the
    same text; [tpAlign], [makeSlice] and [insertVlanHeader] are shared with
    the definitions above ([EtherHdrLen = 6], [VlanHdrLen = 4],
    [TP_STATUS_VLAN_VALID = 0x10]). *)

(** Modelled from the spec: [struct tpacket_hdr] comes from the kernel's
    headers; its layout is the "Variant A frame header: status (8 bytes),
    length, captured length, payload offset (2 bytes), network offset
    (2 bytes), seconds, microseconds, padding to alignment". *)
Module TpV1Hdr.

Record ptr : Type := at_ { addr : uintptr }.

Definition Status (m : mem) (h : ptr) : Z := load64 m (addr h + 0).
Definition Len (m : mem) (h : ptr) : Z := load32 m (addr h + 8).
Definition Snaplen (m : mem) (h : ptr) : Z := load32 m (addr h + 12).
Definition Mac (m : mem) (h : ptr) : Z := load16 m (addr h + 16).
Definition Net (m : mem) (h : ptr) : Z := load16 m (addr h + 18).
Definition Sec (m : mem) (h : ptr) : Z := load32 m (addr h + 20).
Definition Usec (m : mem) (h : ptr) : Z := load32 m (addr h + 24).
(** [tpV1HdrSize = C.sizeof_struct_tpacket_hdr] *)
Definition tpV1HdrSize : Z := 32.

Definition getVLAN (m : mem) (h : ptr) : Z := -1.

Definition getStatus (m : mem) (h : ptr) : Z := to_int (Status m h).

Definition clearStatus (m : mem) (h : ptr) : mem := store64 m (addr h + 0) 0.

Definition getTime (m : mem) (h : ptr) : Time :=
  time_Unix (to_int64 (Sec m h)) (to_int64 (to_int64 (Usec m h) * 1000)).

Definition getData (opts : options) (h : ptr) : Go slice :=
  fun hp =>
    let m := bytes hp in
    ret (makeSlice (to_uintptr (to_uintptr (addr h) + to_uintptr (Mac m h)))
                   (to_int (Snaplen m h))) hp.

Definition getLength (m : mem) (h : ptr) : Z := to_int (Len m h).

Definition getIfaceIndex (m : mem) (h : ptr) : Z :=
  let ll := to_uintptr (to_uintptr (addr h)
                        + to_uintptr (tpAlign (to_int tpV1HdrSize))) in
  to_int (SockAddrLL.Ifindex m ll).

Definition next (m : mem) (h : ptr) : ptr * bool := (h, false).

End TpV1Hdr.

#[export] Instance TpV1Hdr_header : header TpV1Hdr.ptr := {
  getStatus := TpV1Hdr.getStatus;
  clearStatus := TpV1Hdr.clearStatus;
  getTime := TpV1Hdr.getTime;
  getData := TpV1Hdr.getData;
  getLength := TpV1Hdr.getLength;
  getIfaceIndex := TpV1Hdr.getIfaceIndex;
  getVLAN := TpV1Hdr.getVLAN;
  next := TpV1Hdr.next
}.

(** Modelled from the spec: [struct tpacket2_hdr] comes from the kernel's
    headers; its layout is the "Variant B frame header: status (4 bytes),
    length, captured length, payload offset, network offset, seconds,
    nanoseconds, VLAN TCI (2 bytes), VLAN TPID (2 bytes), padding". *)
Module TpV2Hdr.

Record ptr : Type := at_ { addr : uintptr }.

Definition Status (m : mem) (h : ptr) : Z := load32 m (addr h + 0).
Definition Len (m : mem) (h : ptr) : Z := load32 m (addr h + 4).
Definition Snaplen (m : mem) (h : ptr) : Z := load32 m (addr h + 8).
Definition Mac (m : mem) (h : ptr) : Z := load16 m (addr h + 12).
Definition Net (m : mem) (h : ptr) : Z := load16 m (addr h + 14).
Definition Sec (m : mem) (h : ptr) : Z := load32 m (addr h + 16).
Definition Nsec (m : mem) (h : ptr) : Z := load32 m (addr h + 20).
Definition Vlan_tci (m : mem) (h : ptr) : Z := load16 m (addr h + 24).
Definition Vlan_tpid (m : mem) (h : ptr) : Z := load16 m (addr h + 26).
(** [tpV2HdrSize = C.sizeof_struct_tpacket2_hdr] *)
Definition tpV2HdrSize : Z := 32.

Definition getVLAN (m : mem) (h : ptr) : Z := -1.

Definition getStatus (m : mem) (h : ptr) : Z := to_int (Status m h).

Definition clearStatus (m : mem) (h : ptr) : mem := store32 m (addr h + 0) 0.

Definition getTime (m : mem) (h : ptr) : Time :=
  time_Unix (to_int64 (Sec m h)) (to_int64 (Nsec m h)).

Definition getData (opts : options) (h : ptr) : Go slice :=
  fun hp =>
    let m := bytes hp in
    let data := makeSlice (to_uintptr (to_uintptr (addr h) + to_uintptr (Mac m h)))
                          (to_int (Snaplen m h)) in
    insertVlanHeader data (to_int (Vlan_tci m h)) opts hp.

Definition getLength (m : mem) (h : ptr) : Z := to_int (Len m h).

Definition getIfaceIndex (m : mem) (h : ptr) : Z :=
  let ll := to_uintptr (to_uintptr (addr h)
                        + to_uintptr (tpAlign (to_int tpV2HdrSize))) in
  to_int (SockAddrLL.Ifindex m ll).

Definition next (m : mem) (h : ptr) : ptr * bool := (h, false).

End TpV2Hdr.

#[export] Instance TpV2Hdr_header : header TpV2Hdr.ptr := {
  getStatus := TpV2Hdr.getStatus;
  clearStatus := TpV2Hdr.clearStatus;
  getTime := TpV2Hdr.getTime;
  getData := TpV2Hdr.getData;
  getLength := TpV2Hdr.getLength;
  getIfaceIndex := TpV2Hdr.getIfaceIndex;
  getVLAN := TpV2Hdr.getVLAN;
  next := TpV2Hdr.next
}.

(** Modelled from the spec: [struct tpacket3_hdr] and
    [struct tpacket_hdr_variant1] come from the kernel's headers: "Variant C
    packet header: next-packet offset, seconds, nanoseconds, captured length,
    length, status, payload offset (2 bytes), network offset (2 bytes), an
    extension record (receive hash, VLAN TCI, VLAN TPID, padding), trailing
    padding". *)
Module TpV3Packet.
Definition Next_offset (m : mem) (p : uintptr) : Z := load32 m (p + 0).
Definition Sec (m : mem) (p : uintptr) : Z := load32 m (p + 4).
Definition Nsec (m : mem) (p : uintptr) : Z := load32 m (p + 8).
Definition Snaplen (m : mem) (p : uintptr) : Z := load32 m (p + 12).
Definition Len (m : mem) (p : uintptr) : Z := load32 m (p + 16).
Definition Status (m : mem) (p : uintptr) : Z := load32 m (p + 20).
Definition Mac (m : mem) (p : uintptr) : Z := load16 m (p + 24).
Definition Net (m : mem) (p : uintptr) : Z := load16 m (p + 26).
Definition Hv1 (p : uintptr) : uintptr := p + 28.
End TpV3Packet.

Module HeaderVariant1.
Definition Rxhash (m : mem) (p : uintptr) : Z := load32 m (p + 0).
Definition Vlan_tci (m : mem) (p : uintptr) : Z := load32 m (p + 4).
Definition Vlan_tpid (m : mem) (p : uintptr) : Z := load16 m (p + 8).
End HeaderVariant1.

(** Modelled from the spec: [struct tpacket_block_desc] and
    [struct tpacket_hdr_v1] come from the kernel's headers: "Variant C block
    header: ABI version, private offset, then an embedded sub-header: block
    status, packet count, offset to first packet, block length, sequence
    number, first/last packet timestamp pairs". *)
Module TpV3Block.
Definition Version (m : mem) (p : uintptr) : Z := load32 m (p + 0).
Definition Offset_to_priv (m : mem) (p : uintptr) : Z := load32 m (p + 4).
(** [&b.Hdr] *)
Definition Hdr (p : uintptr) : uintptr := p + 8.
End TpV3Block.

Module TpV3BlockHdr.
Definition Block_status (m : mem) (p : uintptr) : Z := load32 m (p + 0).
Definition Num_pkts (m : mem) (p : uintptr) : Z := load32 m (p + 4).
Definition Offset_to_first_pkt (m : mem) (p : uintptr) : Z := load32 m (p + 8).
Definition Blk_len (m : mem) (p : uintptr) : Z := load32 m (p + 12).
Definition Seq_num (m : mem) (p : uintptr) : Z := load64 m (p + 16).
End TpV3BlockHdr.

(** <<
TpV3Hdr struct {
	block    *TpV3Block
	blockhdr *TpV3BlockHdr
	packet   *TpV3Packet
	used     TpV3Used
}
>>
    with [TpV3Used C.__u32]. *)
Module TpV3Hdr.

Record t : Type := mk {
  block : uintptr;
  blockhdr : uintptr;
  packet : uintptr;
  used : Z
}.

(** [tpV3HdrSize = C.sizeof_struct_tpacket3_hdr] *)
Definition tpV3HdrSize : Z := 48.

Definition initV3Wrapper (m : mem) (blk : uintptr) : t :=
  let block := blk in
  let blockhdr := TpV3Block.Hdr block in
  let packet :=
    to_uintptr (to_uintptr blk
                + to_uintptr (TpV3BlockHdr.Offset_to_first_pkt m blockhdr)) in
  mk block blockhdr packet 0.

(** The wrapper's own bytes from the field [packet] on, laid out at address
    0: the pointer (8 bytes), then [used] (4 bytes), then padding.  This is
    the memory [unsafe.Pointer(&w.packet)] points to. *)
Definition field_packet_image (w : t) : mem :=
  store_le 4 (store_le 8 (fun _ => x00) 0 (packet w)) 8 (used w).

(** <<
func (w *TpV3Hdr) getVLAN() int {
	if w.packet.Status&unix.TP_STATUS_VLAN_VALID != 0 {
		hv1 := ( *HeaderVariant1)(unsafe.Pointer(&w.packet))
		return int(hv1.Vlan_tci & 0xfff)
	}
	return -1
}
>>
    [&w.packet] is the address of the wrapper's pointer field, not of the
    packet's extension record: [hv1] overlays the wrapper itself. *)
Definition getVLAN (m : mem) (w : t) : Z :=
  if negb (Z.land (TpV3Packet.Status m (packet w)) StatusVlanValid =? 0) then
    let hv1 := 0 in
    to_int (Z.land (HeaderVariant1.Vlan_tci (field_packet_image w) hv1) 0xfff)
  else -1.

Definition getStatus (m : mem) (w : t) : Z :=
  to_int (TpV3BlockHdr.Block_status m (blockhdr w)).

Definition clearStatus (m : mem) (w : t) : mem := store32 m (blockhdr w + 0) 0.

Definition getTime (m : mem) (w : t) : Time :=
  time_Unix (to_int64 (TpV3Packet.Sec m (packet w)))
            (to_int64 (TpV3Packet.Nsec m (packet w))).

Definition getData (opts : options) (w : t) : Go slice :=
  fun hp =>
    let m := bytes hp in
    let data :=
      makeSlice (to_uintptr (to_uintptr (packet w)
                             + to_uintptr (TpV3Packet.Mac m (packet w))))
                (to_int (TpV3Packet.Snaplen m (packet w))) in
    let hv1 := 0 in
    insertVlanHeader data
      (to_int (HeaderVariant1.Vlan_tci (field_packet_image w) hv1)) opts hp.

Definition getLength (m : mem) (w : t) : Z :=
  to_int (TpV3Packet.Len m (packet w)).

Definition getIfaceIndex (m : mem) (w : t) : Z :=
  let ll := to_uintptr (to_uintptr (packet w)
                        + to_uintptr (tpAlign (to_int tpV3HdrSize))) in
  to_int (SockAddrLL.Ifindex m ll).

(** <<
func (w *TpV3Hdr) next() bool {
	w.used++
	if w.used >= (TpV3Used)(w.blockhdr.Num_pkts) {
		return false
	}

	next := uintptr(unsafe.Pointer(w.packet))
	if w.packet.Next_offset != 0 {
		next += uintptr(w.packet.Next_offset)
	} else {
		next += uintptr(tpAlign(int(w.packet.Snaplen) + int(w.packet.Mac)))
	}
	w.packet = ( *TpV3Packet)(unsafe.Pointer(next))
	return true
}
>> *)
Definition next (m : mem) (w : t) : t * bool :=
  let w := mk (block w) (blockhdr w) (packet w) (to_uint32 (used w + 1)) in
  if to_uint32 (TpV3BlockHdr.Num_pkts m (blockhdr w)) <=? used w then (w, false)
  else
    let next := to_uintptr (packet w) in
    let next :=
      if negb (TpV3Packet.Next_offset m (packet w) =? 0) then
        to_uintptr (next + to_uintptr (TpV3Packet.Next_offset m (packet w)))
      else
        to_uintptr
          (next + to_uintptr (tpAlign (to_int (to_int (TpV3Packet.Snaplen m (packet w))
                                               + to_int (TpV3Packet.Mac m (packet w)))))) in
    (mk (block w) (blockhdr w) next (used w), true).

End TpV3Hdr.

#[export] Instance TpV3Hdr_header : header TpV3Hdr.t := {
  getStatus := TpV3Hdr.getStatus;
  clearStatus := TpV3Hdr.clearStatus;
  getTime := TpV3Hdr.getTime;
  getData := TpV3Hdr.getData;
  getLength := TpV3Hdr.getLength;
  getIfaceIndex := TpV3Hdr.getIfaceIndex;
  getVLAN := TpV3Hdr.getVLAN;
  next := TpV3Hdr.next
}.

(** ** Runs of [next]

    [calls m k w]: the results of [k] successive calls of [next] on [w], oldest
    first, and the receiver they leave. *)
Fixpoint calls {H : Type} `{header H} (m : mem) (k : nat) (w : H) : list bool * H :=
  match k with
  | O => ([], w)
  | S k' =>
      let (w', b) := next m w in
      let (bs, w'') := calls m k' w' in
      (b :: bs, w'')
  end.

(** The receivers a caller that follows the contract of [next] ("false if
    there are no more packets (in which case clearStatus should be called)")
    can hold: [run m w0 w b] when [w] is reached from [w0] by calls of [next]
    of which only the last may have returned false; [b] is what the last call
    returned ([true] before any call). *)
Inductive run {H : Type} `{header H} (m : mem) (w0 : H) : H -> bool -> Prop :=
| run_start : run m w0 w0 true
| run_next w : run m w0 w true -> run m w0 (fst (next m w)) (snd (next m w)).

(** ** Footprints

    [same_outside m m' a n]: memory [m'] differs from [m] at most in the [n]
    bytes from address [a] on. *)
Definition same_outside (m m' : mem) (a : uintptr) (n : Z) : Prop :=
  forall x, x < a \/ a + n <= x -> m' x = m x.

(** Every slice that lies outside those [n] bytes holds the same elements. *)
Definition keeps_slices (m m' : mem) (a : uintptr) (n : Z) : Prop :=
  forall s, Data s + Len s <= a \/ a + n <= Data s ->
            slice_bytes m' s = slice_bytes m s.

(** ** Well-formed slices

    [runtime.maxAlloc] on linux/amd64: no object, allocated or mapped, is
    larger than the 48-bit address space. *)
Definition maxAlloc : Z := 2 ^ 48.

(** A slice as the runtime hands them out and as [makeSlice] builds them over
    a frame: a length within the capacity, a capacity within [maxAlloc]. *)
Definition valid_slice (s : slice) : Prop :=
  0 <= Len s <= Cap s /\ Cap s <= maxAlloc.

(** The allocator's contract: the next [n] bytes it hands out do not overlap
    the backing array of the live slice [s]. *)
Definition fresh_for (h : heap) (n : Z) (s : slice) : Prop :=
  Data s + Cap s <= brk h \/ brk h + n <= Data s.

(** The 802.1Q tag [insertVlanHeader] writes for [vlanTCI]. *)
Definition vlan_tag (vlanTCI : Z) : list byte :=
  [x81; x00; byte_of_Z (Z.land (Z.shiftr vlanTCI 8) 0xff);
   byte_of_Z (Z.land vlanTCI 0xff)].


(** ** Vocabulary for the properties of the accessors *)

(** An address at least 2^33 bytes below the top of the address space: no
    offset a header field can hold carries a pointer sum past 2^64. *)
Definition mapped (p : uintptr) : Prop := 0 <= p /\ p + 2 ^ 33 <= 2 ^ 64.

(** [out], in heap [hp'], is a newly allocated copy of [data] (as heap [hp]
    holds it) with the 802.1Q tag for [tci] after its first 12 bytes, and
    nothing but the new array was written. *)
Definition tagged_copy (hp : heap) (data : slice) (tci : Z)
                       (out : slice) (hp' : heap) : Prop :=
  Data out = brk hp
  /\ Len out = Len data + 4
  /\ Cap out = Len data + 4
  /\ brk hp' = brk hp + (Len data + 4)
  /\ slice_bytes (bytes hp') out
     = firstn 12 (slice_bytes (bytes hp) data) ++ vlan_tag tci
       ++ skipn 12 (slice_bytes (bytes hp) data)
  /\ same_outside (bytes hp) (bytes hp') (brk hp) (Len data + 4).

(** The distance [next] moves the packet pointer by, and the addresses a
    wrapper visits from packet [p] on. *)
Definition V3header_stride (m : mem) (p : uintptr) : Z :=
  if TpPacket.TpNextOffset m p =? 0
  then tpAlign (TpPacket.Tp_snaplen m p + TpPacket.Tp_mac m p)
  else TpPacket.TpNextOffset m p.

Fixpoint V3header_walk (m : mem) (p : uintptr) (k : nat) : uintptr :=
  match k with
  | O => p
  | S k' => V3header_walk m (to_uintptr (p + V3header_stride m p)) k'
  end.

Definition TpV3Hdr_stride (m : mem) (p : uintptr) : Z :=
  if TpV3Packet.Next_offset m p =? 0
  then tpAlign (TpV3Packet.Snaplen m p + TpV3Packet.Mac m p)
  else TpV3Packet.Next_offset m p.

Fixpoint TpV3Hdr_walk (m : mem) (p : uintptr) (k : nat) : uintptr :=
  match k with
  | O => p
  | S k' => TpV3Hdr_walk m (to_uintptr (p + TpV3Hdr_stride m p)) k'
  end.

(** The number a little-endian byte string stands for. *)
Fixpoint le_decode (bs : list byte) : Z :=
  match bs with
  | [] => 0
  | b :: bs' => Z_of_byte b + 256 * le_decode bs'
  end.

(** The [n] little-endian bytes of [v]. *)
Fixpoint le_bytes (n : nat) (v : Z) : list byte :=
  match n with
  | O => []
  | S n' => byte_of_Z v :: le_bytes n' (v / 256)
  end.

(** [v] fits an unsigned field of [bits] bits. *)
Definition fits (bits v : Z) : Prop := 0 <= v < 2 ^ bits.

(** ** Headers as the kernel lays them out

    The bytes of a header whose fields hold the given values, field after
    field in declaration order, each little-endian. *)
Definition V1header_encode (status len snaplen mac net sec usec : Z)
  : list byte :=
  le_bytes 8 status ++ le_bytes 4 len ++ le_bytes 4 snaplen ++ le_bytes 2 mac
  ++ le_bytes 2 net ++ le_bytes 4 sec ++ le_bytes 4 usec ++ repeat x00 4.

Definition V2header_encode (status len snaplen mac net sec nsec tci tpid : Z)
  : list byte :=
  le_bytes 4 status ++ le_bytes 4 len ++ le_bytes 4 snaplen ++ le_bytes 2 mac
  ++ le_bytes 2 net ++ le_bytes 4 sec ++ le_bytes 4 nsec ++ le_bytes 2 tci
  ++ le_bytes 2 tpid ++ repeat x00 4.

Definition TpPacket_encode
  (next_offset sec nsec snaplen len status mac net rxhash tci tpid : Z)
  : list byte :=
  le_bytes 4 next_offset ++ le_bytes 4 sec ++ le_bytes 4 nsec
  ++ le_bytes 4 snaplen ++ le_bytes 4 len ++ le_bytes 4 status
  ++ le_bytes 2 mac ++ le_bytes 2 net ++ le_bytes 4 rxhash ++ le_bytes 4 tci
  ++ le_bytes 2 tpid ++ repeat x00 10.

Definition TpBlock_encode
  (version to_priv block_status num_pkts offset_to_first_pkt blk_len seq_num : Z)
  : list byte :=
  le_bytes 4 version ++ le_bytes 4 to_priv ++ le_bytes 4 block_status
  ++ le_bytes 4 num_pkts ++ le_bytes 4 offset_to_first_pkt
  ++ le_bytes 4 blk_len ++ le_bytes 8 seq_num ++ repeat x00 16.

(** ** Sample ring contents *)

Module Sample.

Definition base : uintptr := 0x7f0000001000.

(** A v1 frame: status [TP_STATUS_USER], 60 bytes on the wire and captured,
    payload at offset 66, stamped 1700000000 s + 250000 us. *)
Definition v1_frame : list byte :=
  le_bytes 8 1 ++ le_bytes 4 60 ++ le_bytes 4 60 ++ le_bytes 2 66
  ++ le_bytes 2 80 ++ le_bytes 4 1700000000 ++ le_bytes 4 250000
  ++ le_bytes 4 0.

(** A v2 frame: status [TP_STATUS_USER | TP_STATUS_VLAN_VALID], stamped
    1700000000 s + 250000000 ns, VLAN TCI 0x0ABC, TPID 0x8100. *)
Definition v2_frame : list byte :=
  le_bytes 4 0x11 ++ le_bytes 4 60 ++ le_bytes 4 60 ++ le_bytes 2 66
  ++ le_bytes 2 80 ++ le_bytes 4 1700000000 ++ le_bytes 4 250000000
  ++ le_bytes 2 0x0ABC ++ le_bytes 2 0x8100 ++ le_bytes 4 0.

(** A v3 packet header followed by room for its payload, 48 + 16 bytes. *)
Definition v3_packet (next_offset status tci : Z) : list byte :=
  le_bytes 4 next_offset ++ le_bytes 4 1700000000 ++ le_bytes 4 250000000
  ++ le_bytes 4 14 ++ le_bytes 4 14 ++ le_bytes 4 status ++ le_bytes 2 48
  ++ le_bytes 2 62 ++ le_bytes 4 0 ++ le_bytes 4 tci ++ le_bytes 2 0x8100
  ++ le_bytes 2 0 ++ le_bytes 8 0 ++ repeat x00 16.

(** A v3 block descriptor: version 1, status [TP_STATUS_USER], [num_pkts]
    packets, the first one 48 bytes in. *)
Definition v3_block_desc (num_pkts : Z) : list byte :=
  le_bytes 4 1 ++ le_bytes 4 0
  ++ le_bytes 4 1 ++ le_bytes 4 num_pkts ++ le_bytes 4 48 ++ le_bytes 4 4096
  ++ le_bytes 8 7 ++ le_bytes 8 0 ++ le_bytes 8 0.

(** Three packets chained by their next-offset fields; the middle one leaves
    the field zero, so that its successor is found by alignment; the first
    carries an out-of-band VLAN tag. *)
Definition v3_block3 : list byte :=
  v3_block_desc 3 ++ v3_packet 64 0x11 0x0ABC ++ v3_packet 0 1 0
  ++ v3_packet 0 1 0.

Definition v3_block1 : list byte := v3_block_desc 1 ++ v3_packet 0 1 0.
Definition v3_block0 : list byte := v3_block_desc 0.



End Sample.

(** ** Facts about the conversions *)

Lemma to_unsigned_range bits x : 0 <= bits -> 0 <= to_unsigned bits x < 2 ^ bits.
Proof. intros Hb. unfold to_unsigned. apply Z.mod_pos_bound. lia. Qed.

Lemma to_unsigned_id bits x : 0 <= x < 2 ^ bits -> to_unsigned bits x = x.
Proof. intros H. unfold to_unsigned. apply Z.mod_small. exact H. Qed.

Lemma to_signed_id bits x :
  - 2 ^ (bits - 1) <= x < 2 ^ (bits - 1) -> 0 < bits -> to_signed bits x = x.
Proof.
  intros H Hb. unfold to_signed.
  assert (E : 2 ^ bits = 2 * 2 ^ (bits - 1)).
  { replace bits with (Z.succ (bits - 1)) at 1 by lia. apply Z.pow_succ_r. lia. }
  rewrite Z.mod_small; lia.
Qed.

Lemma ldiff_low_bits a n : 0 <= n -> Z.ldiff a (2 ^ n - 1) = a - a mod 2 ^ n.
Proof.
  intros Hn.
  replace (2 ^ n - 1) with (Z.ones n) by (rewrite Z.ones_equiv; lia).
  rewrite Z.ldiff_ones_r by exact Hn.
  rewrite Z.shiftr_div_pow2, Z.shiftl_mul_pow2 by exact Hn.
  pose proof (Z.div_mod a (2 ^ n)). lia.
Qed.

Lemma tpAlign_spec x :
  0 <= x <= maxInt - 15 -> tpAlign x = 16 * ((x + 15) / 16).
Proof.
  unfold maxInt. intros Hx. unfold tpAlign, tpacketAlignment, to_uint, to_int.
  rewrite (to_unsigned_id 64 16) by lia.
  rewrite (to_unsigned_id 64 x) by lia.
  rewrite (to_unsigned_id 64 (x + 16)) by lia.
  rewrite (to_unsigned_id 64 (x + 16 - 1)) by lia.
  rewrite (to_unsigned_id 64 (16 - 1)) by lia.
  change (16 - 1) with (2 ^ 4 - 1). rewrite ldiff_low_bits by lia.
  change (2 ^ 4) with 16.
  pose proof (Z.div_mod (x + 16 - 1) 16 ltac:(lia)) as D.
  pose proof (Z.mod_pos_bound (x + 16 - 1) 16 ltac:(lia)) as B.
  replace (x + 15) with (x + 16 - 1) by lia.
  rewrite to_signed_id; lia.
Qed.

(** ** Facts about raw memory *)

Lemma Z_of_byte_range b : 0 <= Z_of_byte b < 256.
Proof.
  unfold Z_of_byte. pose proof (Byte.to_N_bounded b) as B. lia.
Qed.

Lemma Z_of_byte_of_Z v : Z_of_byte (byte_of_Z v) = v mod 256.
Proof.
  unfold Z_of_byte, byte_of_Z.
  pose proof (Z.mod_pos_bound v 256 ltac:(lia)) as B.
  destruct (Byte.of_N (Z.to_N (v mod 256))) as [b|] eqn:E.
  - apply Byte.to_of_N in E. rewrite E. lia.
  - apply Byte.of_N_None_iff in E. lia.
Qed.

Lemma load_le_range n m a : 0 <= load_le n m a < 256 ^ Z.of_nat n.
Proof.
  revert a. induction n as [|n IH]; intros a.
  - simpl. lia.
  - rewrite Nat2Z.inj_succ, Z.pow_succ_r by lia.
    cbn [load_le]. pose proof (Z_of_byte_range (m a)). specialize (IH (a + 1)). lia.
Qed.

Lemma store8_same m a v : store8 m a v a = byte_of_Z v.
Proof. unfold store8. rewrite Z.eqb_refl. reflexivity. Qed.

Lemma store8_other m a v x : x <> a -> store8 m a v x = m x.
Proof. intros H. unfold store8. apply Z.eqb_neq in H. rewrite H. reflexivity. Qed.

Lemma store_le_other n : forall m a v x,
  x < a \/ a + Z.of_nat n <= x -> store_le n m a v x = m x.
Proof.
  induction n as [|n IH]; intros m a v x H.
  - reflexivity.
  - cbn [store_le]. rewrite IH by lia. apply store8_other. lia.
Qed.

Lemma load_le_ext n : forall m m' a,
  (forall x, a <= x < a + Z.of_nat n -> m' x = m x) ->
  load_le n m' a = load_le n m a.
Proof.
  induction n as [|n IH]; intros m m' a H.
  - reflexivity.
  - cbn [load_le]. rewrite (H a) by lia. rewrite (IH m m' (a + 1)); [reflexivity|].
    intros x Hx. apply H. lia.
Qed.

Lemma load_store_le n : forall m a v,
  load_le n (store_le n m a v) a = v mod 256 ^ Z.of_nat n.
Proof.
  induction n as [|n IH]; intros m a v.
  - simpl. symmetry. apply Z.mod_1_r.
  - cbn [load_le store_le]. rewrite IH.
    rewrite store_le_other by lia. rewrite store8_same, Z_of_byte_of_Z.
    rewrite Nat2Z.inj_succ, Z.pow_succ_r by lia.
    rewrite Z.rem_mul_r by lia. reflexivity.
Qed.

Lemma load_le_store_le_disjoint k n m a b v :
  a + Z.of_nat k <= b \/ b + Z.of_nat n <= a ->
  load_le k (store_le n m b v) a = load_le k m a.
Proof.
  intros H. apply load_le_ext. intros x Hx. apply store_le_other. lia.
Qed.

(** ** Alignment *)

Lemma least_multiple_ge_round_up x :
  0 <= x -> least_multiple_ge 16 x (16 * ((x + 15) / 16)).
Proof.
  intros Hx.
  pose proof (Z.div_mod (x + 15) 16 ltac:(lia)) as D.
  pose proof (Z.mod_pos_bound (x + 15) 16 ltac:(lia)) as B.
  repeat split.
  - exists ((x + 15) / 16). lia.
  - lia.
  - intros m [k ->] Hm. lia.
Qed.

(** C5, as the code has it: for every [int] x with 0 <= x <= MaxInt - 15,
    [tpAlign x] is the smallest multiple of the alignment constant 16 that is
    greater than or equal to x; in particular tpAlign(0) = 0,
    tpAlign(1) = 16, tpAlign(16) = 16 and tpAlign(17) = 32. *)
Theorem tpAlign_least_multiple :
  (forall x, 0 <= x <= maxInt - 15 ->
             least_multiple_ge tpacketAlignment x (tpAlign x))
  /\ tpAlign 0 = 0 /\ tpAlign 1 = 16 /\ tpAlign 16 = 16 /\ tpAlign 17 = 32.
Proof.
  split; [|repeat split; reflexivity].
  intros x Hx. rewrite tpAlign_spec by exact Hx.
  change tpacketAlignment with 16.
  apply least_multiple_ge_round_up. lia.
Qed.

Lemma tpAlign_least_multiple_witness :
  least_multiple_ge tpacketAlignment 1500 (tpAlign 1500) /\ tpAlign 1500 = 1504.
Proof.
  split; [|reflexivity].
  apply (proj1 tpAlign_least_multiple 1500). unfold maxInt. lia.
Defined.

(** C5, as the specification words it, fails at the top of [int]'s range:
    [MaxInt] is a non-negative [int], and [tpAlign] wraps around to [MinInt]
    there, which is below its argument. *)
Lemma tpAlign_maxInt_not_least_multiple :
  0 <= maxInt /\ to_int maxInt = maxInt /\ tpAlign maxInt = minInt
  /\ ~ least_multiple_ge tpacketAlignment maxInt (tpAlign maxInt).
Proof.
  assert (E : tpAlign maxInt = minInt) by (vm_compute; reflexivity).
  repeat split; try (vm_compute; congruence).
  rewrite E. intros (_ & Hle & _). vm_compute in Hle. apply Hle. reflexivity.
Qed.

(** ** [getVLAN] *)

Lemma land_0xfff_range x : 0 <= Z.land x 0xfff < 4096.
Proof.
  change 0xfff with (Z.ones 12). rewrite Z.land_ones by lia.
  apply Z.mod_pos_bound. lia.
Qed.

Lemma to_int_small x : 0 <= x < 2 ^ 63 -> to_int x = x.
Proof. intros H. unfold to_int. apply to_signed_id; lia. Qed.

Lemma V3header_getVLAN_cases m w :
  V3header.getVLAN m w =
  if Z.land (TpPacket.Tp_status m (V3header.Packet w)) StatusVlanValid =? 0
  then -1
  else Z.land (TpPacket.Tp_hv1_TpVlanTci m (V3header.Packet w)) 0xfff.
Proof.
  unfold V3header.getVLAN.
  destruct (Z.land _ StatusVlanValid =? 0); cbn [negb]; [reflexivity|].
  apply to_int_small. pose proof (land_0xfff_range
    (TpPacket.Tp_hv1_TpVlanTci m (V3header.Packet w))). lia.
Qed.

(** C1, as the code has it: [getVLAN] returns -1 for every v1 header and for
    every v2 header, whatever the header's bytes are (the v2 status bit and
    TCI are not consulted).  For a v3 header (hand-written layout) it returns
    -1 when the VLAN-valid bit 0x10 is unset in the current packet's status,
    and the packet's VLAN TCI masked to 12 bits otherwise.  For a v3 header of
    the cgo-typed variant it returns -1 when that bit is unset. *)
Theorem getVLAN_by_variant :
  (forall m h, V1header.getVLAN m h = -1)
  /\ (forall m h, TpV1Hdr.getVLAN m h = -1)
  /\ (forall m h, V2header.getVLAN m h = -1)
  /\ (forall m h, TpV2Hdr.getVLAN m h = -1)
  /\ (forall m w,
        Z.land (TpPacket.Tp_status m (V3header.Packet w)) StatusVlanValid = 0 ->
        V3header.getVLAN m w = -1)
  /\ (forall m w,
        Z.land (TpPacket.Tp_status m (V3header.Packet w)) StatusVlanValid <> 0 ->
        V3header.getVLAN m w
        = Z.land (TpPacket.Tp_hv1_TpVlanTci m (V3header.Packet w)) 0xfff)
  /\ (forall m w,
        Z.land (TpV3Packet.Status m (TpV3Hdr.packet w)) StatusVlanValid = 0 ->
        TpV3Hdr.getVLAN m w = -1).
Proof.
  repeat split; try reflexivity.
  - intros m w H. rewrite V3header_getVLAN_cases.
    apply Z.eqb_eq in H. rewrite H. reflexivity.
  - intros m w H. rewrite V3header_getVLAN_cases.
    apply Z.eqb_neq in H. rewrite H. reflexivity.
  - intros m w H. unfold TpV3Hdr.getVLAN.
    apply Z.eqb_eq in H. rewrite H. reflexivity.
Qed.

Lemma getVLAN_by_variant_witness :
  let m := mem_of_bytes Sample.base Sample.v3_block3 in
  let w := V3header.initV3Wrapper m Sample.base in
  V3header.getVLAN m w = 0xABC
  /\ V3header.getVLAN m (fst (V3header.next m w)) = -1
  /\ TpV3Hdr.getVLAN m (fst (TpV3Hdr.next m (TpV3Hdr.initV3Wrapper m Sample.base))) = -1.
Proof.
  intros m w.
  destruct getVLAN_by_variant as (_ & _ & _ & _ & Hunset & Hset & Hcgo).
  split; [|split].
  - rewrite (Hset m w); [vm_compute; reflexivity | vm_compute; discriminate].
  - apply Hunset. vm_compute. reflexivity.
  - apply Hcgo. vm_compute. reflexivity.
Defined.

(** C1, as the specification words it, fails for v2: a v2 frame whose status
    has the VLAN-valid bit set and whose TCI is 0x0ABC still reports -1, not
    0xABC. *)
Lemma V2header_getVLAN_ignores_tci :
  let m := mem_of_bytes Sample.base Sample.v2_frame in
  let h := V2header.at_ Sample.base in
  Z.land (V2header.Status m h) StatusVlanValid <> 0
  /\ Z.land (V2header.VlanTci m h) 0xfff = 0xABC
  /\ V2header.getVLAN m h = -1
  /\ V2header.getVLAN m h <> Z.land (V2header.VlanTci m h) 0xfff
  /\ TpV2Hdr.getVLAN m (TpV2Hdr.at_ Sample.base)
     <> Z.land (TpV2Hdr.Vlan_tci m (TpV2Hdr.at_ Sample.base)) 0xfff.
Proof.
  intros m h. repeat split; vm_compute; congruence.
Qed.

(** A load from the upper part of a stored word. *)
Lemma load_le_store_le_upper k : forall j m a v,
  load_le k (store_le (j + k) m a v) (a + Z.of_nat j)
  = (v / 256 ^ Z.of_nat j) mod 256 ^ Z.of_nat k.
Proof.
  induction j as [|j IH]; intros m a v.
  - cbn [Nat.add Z.of_nat]. rewrite Z.add_0_r, Z.pow_0_r, Z.div_1_r.
    apply load_store_le.
  - cbn [Nat.add store_le].
    replace (a + Z.of_nat (S j)) with (a + 1 + Z.of_nat j) by lia.
    rewrite IH. rewrite Nat2Z.inj_succ, Z.pow_succ_r by lia.
    rewrite Z.div_div by lia. reflexivity.
Qed.

(** X1: the cgo-typed v3 [getVLAN] overlays the extension record on the
    wrapper's own [packet] field: what it takes for the TCI is the upper half
    of the packet pointer, so with the VLAN-valid bit set it returns bits
    32..43 of that pointer, whatever the packet's TCI is. *)
Lemma TpV3Hdr_getVLAN_reads_pointer m w :
  0 <= TpV3Hdr.packet w < 2 ^ 64 ->
  Z.land (TpV3Packet.Status m (TpV3Hdr.packet w)) StatusVlanValid <> 0 ->
  TpV3Hdr.getVLAN m w = Z.land (Z.shiftr (TpV3Hdr.packet w) 32) 0xfff.
Proof.
  intros Hp Hbit. unfold TpV3Hdr.getVLAN.
  apply Z.eqb_neq in Hbit. rewrite Hbit. cbn [negb]. cbv zeta.
  unfold HeaderVariant1.Vlan_tci, TpV3Hdr.field_packet_image, load32.
  rewrite load_le_store_le_disjoint by (cbn; lia).
  pose proof (load_le_store_le_upper 4 4 (fun _ => x00) 0 (TpV3Hdr.packet w))
    as U.
  change (4 + 4)%nat with 8%nat in U. change (0 + Z.of_nat 4) with (0 + 4) in U.
  rewrite U. clear U.
  rewrite Z.shiftr_div_pow2 by lia.
  change (256 ^ Z.of_nat 4) with (2 ^ 32).
  assert (Q : 0 <= TpV3Hdr.packet w / 2 ^ 32 < 2 ^ 32).
  { split; [apply Z.div_pos; lia | apply Z.div_lt_upper_bound; lia]. }
  rewrite Z.mod_small by exact Q.
  apply to_int_small.
  pose proof (land_0xfff_range (TpV3Hdr.packet w / 2 ^ 32)). lia.
Qed.

(** On the sample block, whose first packet carries TCI 0x0ABC with the
    VLAN-valid bit set, the two v3 wrappers disagree. *)
Lemma TpV3Hdr_getVLAN_sample :
  let m := mem_of_bytes Sample.base Sample.v3_block3 in
  let w := TpV3Hdr.initV3Wrapper m Sample.base in
  Z.land (TpV3Packet.Status m (TpV3Hdr.packet w)) StatusVlanValid <> 0
  /\ HeaderVariant1.Vlan_tci m (TpV3Packet.Hv1 (TpV3Hdr.packet w)) = 0xABC
  /\ V3header.getVLAN m (V3header.initV3Wrapper m Sample.base) = 0xABC
  /\ TpV3Hdr.getVLAN m w = 0xF00.
Proof.
  intros m w. repeat split; vm_compute; congruence.
Qed.

(** ** [next] on single-packet frames *)

Lemma calls_all_false {H : Type} `{header H} (m : mem) :
  (forall h : H, next m h = (h, false)) ->
  forall k (h : H), calls m k h = (repeat false k, h).
Proof.
  intros Hnext k. induction k as [|k IH]; intros h.
  - reflexivity.
  - cbn [calls repeat]. rewrite Hnext, IH. reflexivity.
Qed.

(** C9: for every v1 and v2 header, whatever its fields hold, the first call
    of [next] returns false (and leaves the header where it was); so does
    every later call. *)
Theorem next_v1_v2_false :
  (forall m h, V1header.next m h = (h, false))
  /\ (forall m h, V2header.next m h = (h, false))
  /\ (forall m h, TpV1Hdr.next m h = (h, false))
  /\ (forall m h, TpV2Hdr.next m h = (h, false))
  /\ (forall m k (h : V1header.ptr), fst (calls m k h) = repeat false k)
  /\ (forall m k (h : V2header.ptr), fst (calls m k h) = repeat false k)
  /\ (forall m k (h : TpV1Hdr.ptr), fst (calls m k h) = repeat false k)
  /\ (forall m k (h : TpV2Hdr.ptr), fst (calls m k h) = repeat false k).
Proof.
  repeat split; try reflexivity;
    intros m k h; rewrite calls_all_false; reflexivity.
Qed.

(** ** [getTime] *)

Lemma to_int64_small x : 0 <= x < 2 ^ 63 -> to_int64 x = x.
Proof. intros H. unfold to_int64. apply to_signed_id; lia. Qed.

Lemma load32_range m a : 0 <= load32 m a < 2 ^ 32.
Proof. exact (load_le_range 4 m a). Qed.

Lemma load16_range m a : 0 <= load16 m a < 2 ^ 16.
Proof. exact (load_le_range 2 m a). Qed.

Lemma load64_range m a : 0 <= load64 m a < 2 ^ 64.
Proof. exact (load_le_range 8 m a). Qed.

(** [time.Unix] on a [uint32] count of seconds and a non-negative count of
    nanoseconds that fits 43 bits: the instant is their sum. *)
Lemma unixNano_time_Unix sec nsec :
  0 <= sec < 2 ^ 32 -> 0 <= nsec < 2 ^ 43 ->
  unixNano (time_Unix sec nsec) = sec * 1000000000 + nsec
  /\ 0 <= unixNsec (time_Unix sec nsec) < 1000000000.
Proof.
  intros Hs Hn. unfold time_Unix.
  destruct (Z.ltb_spec nsec 0) as [?|_]; [lia|]. cbn [orb].
  destruct (Z.leb_spec 1000000000 nsec) as [Hbig|Hsmall].
  - rewrite Z.quot_div_nonneg by lia.
    pose proof (Z.div_mod nsec 1000000000 ltac:(lia)) as D.
    pose proof (Z.mod_pos_bound nsec 1000000000 ltac:(lia)) as B.
    assert (Q : 0 <= nsec / 1000000000 < 2 ^ 14).
    { split; [apply Z.div_pos; lia|]. apply Z.div_lt_upper_bound; lia. }
    rewrite (to_int64_small (sec + _)) by lia.
    rewrite (to_int64_small (_ * 1000000000)) by lia.
    rewrite (to_int64_small (nsec - _)) by lia.
    destruct (Z.ltb_spec (nsec - nsec / 1000000000 * 1000000000) 0) as [?|_]; [lia|].
    unfold unixNano. cbn [unixSec unixNsec]. lia.
  - unfold unixNano. cbn [unixSec unixNsec]. lia.
Qed.

Lemma unixNano_usec sec usec :
  0 <= sec < 2 ^ 32 -> 0 <= usec < 2 ^ 32 ->
  unixNano (time_Unix (to_int64 sec) (to_int64 (to_int64 usec * 1000)))
  = sec * 1000000000 + usec * 1000.
Proof.
  intros Hs Hu.
  rewrite (to_int64_small sec), (to_int64_small usec) by lia.
  rewrite (to_int64_small (usec * 1000)) by lia.
  apply unixNano_time_Unix; lia.
Qed.

Lemma unixNano_nsec sec nsec :
  0 <= sec < 2 ^ 32 -> 0 <= nsec < 2 ^ 32 ->
  unixNano (time_Unix (to_int64 sec) (to_int64 nsec))
  = sec * 1000000000 + nsec.
Proof.
  intros Hs Hn.
  rewrite (to_int64_small sec), (to_int64_small nsec) by lia.
  apply unixNano_time_Unix; lia.
Qed.

(** C7: a v1 header with seconds S and microseconds U and a v2 header with
    seconds S and nanoseconds U * 1000 have the same timestamp.  v1 combines
    the seconds with the microseconds scaled by 1000: its instant is
    S * 10^9 + U * 1000 ns; v2 and v3 take seconds and nanoseconds as they
    are: S * 10^9 + N ns. *)
Theorem getTime_usec_nsec_agree :
  (forall m1 h1 m2 h2,
      V2header.Sec m2 h2 = V1header.Sec m1 h1 ->
      V2header.Nsec m2 h2 = V1header.Usec m1 h1 * 1000 ->
      V1header.getTime m1 h1 = V2header.getTime m2 h2)
  /\ (forall m1 h1 m2 h2,
      TpV2Hdr.Sec m2 h2 = TpV1Hdr.Sec m1 h1 ->
      TpV2Hdr.Nsec m2 h2 = TpV1Hdr.Usec m1 h1 * 1000 ->
      TpV1Hdr.getTime m1 h1 = TpV2Hdr.getTime m2 h2)
  /\ (forall m h, unixNano (V1header.getTime m h)
                  = V1header.Sec m h * 1000000000 + V1header.Usec m h * 1000)
  /\ (forall m h, unixNano (TpV1Hdr.getTime m h)
                  = TpV1Hdr.Sec m h * 1000000000 + TpV1Hdr.Usec m h * 1000)
  /\ (forall m h, unixNano (V2header.getTime m h)
                  = V2header.Sec m h * 1000000000 + V2header.Nsec m h)
  /\ (forall m h, unixNano (TpV2Hdr.getTime m h)
                  = TpV2Hdr.Sec m h * 1000000000 + TpV2Hdr.Nsec m h)
  /\ (forall m w, unixNano (V3header.getTime m w)
                  = TpPacket.Tp_sec m (V3header.Packet w) * 1000000000
                    + TpPacket.Tp_nsec m (V3header.Packet w))
  /\ (forall m w, unixNano (TpV3Hdr.getTime m w)
                  = TpV3Packet.Sec m (TpV3Hdr.packet w) * 1000000000
                    + TpV3Packet.Nsec m (TpV3Hdr.packet w)).
Proof.
  split; [|split].
  - intros m1 h1 m2 h2 Hsec Hnsec.
    unfold V1header.getTime, V2header.getTime.
    rewrite Hsec, Hnsec.
    pose proof (load32_range m1 (V1header.addr h1 + 24)) as U.
    fold (V1header.Usec m1 h1) in U.
    rewrite (to_int64_small (V1header.Usec m1 h1)) by lia. reflexivity.
  - intros m1 h1 m2 h2 Hsec Hnsec.
    unfold TpV1Hdr.getTime, TpV2Hdr.getTime.
    rewrite Hsec, Hnsec.
    pose proof (load32_range m1 (TpV1Hdr.addr h1 + 24)) as U.
    fold (TpV1Hdr.Usec m1 h1) in U.
    rewrite (to_int64_small (TpV1Hdr.Usec m1 h1)) by lia. reflexivity.
  - repeat split; intros m h;
      first [ apply unixNano_usec | apply unixNano_nsec ]; apply load32_range.
Qed.

Lemma getTime_usec_nsec_agree_witness :
  let m1 := mem_of_bytes Sample.base Sample.v1_frame in
  let m2 := mem_of_bytes Sample.base Sample.v2_frame in
  V1header.getTime m1 (V1header.at_ Sample.base)
  = V2header.getTime m2 (V2header.at_ Sample.base)
  /\ TpV1Hdr.getTime m1 (TpV1Hdr.at_ Sample.base)
     = TpV2Hdr.getTime m2 (TpV2Hdr.at_ Sample.base)
  /\ V1header.Usec m1 (V1header.at_ Sample.base) = 250000
  /\ V2header.Nsec m2 (V2header.at_ Sample.base) = 250000000.
Proof.
  intros m1 m2. split; [|split; [|split; reflexivity]].
  - apply (proj1 getTime_usec_nsec_agree); reflexivity.
  - apply (proj1 (proj2 getTime_usec_nsec_agree)); reflexivity.
Defined.

(** ** [clearStatus] *)

Lemma load_bytes_ext n : forall m m' a,
  (forall x, a <= x < a + Z.of_nat n -> m' x = m x) ->
  load_bytes m' a n = load_bytes m a n.
Proof.
  induction n as [|n IH]; intros m m' a H.
  - reflexivity.
  - cbn [load_bytes]. rewrite (H a) by lia. f_equal.
    apply IH. intros x Hx. apply H. lia.
Qed.

Lemma same_outside_store_le n m a v :
  same_outside m (store_le n m a v) a (Z.of_nat n).
Proof. intros x Hx. apply store_le_other. exact Hx. Qed.

Lemma same_outside_keeps_slices m m' a n :
  same_outside m m' a n -> keeps_slices m m' a n.
Proof.
  intros Hout s Hs. unfold slice_bytes. apply load_bytes_ext.
  intros x Hx. apply Hout.
  lia.
Qed.

Lemma same_outside_load_le k m m' a n b :
  same_outside m m' a n ->
  b + Z.of_nat k <= a \/ a + n <= b ->
  load_le k m' b = load_le k m b.
Proof.
  intros Hout Hb. apply load_le_ext. intros x Hx. apply Hout. lia.
Qed.

Create HintDb layout.
#[local] Hint Unfold
  V1header.Status V1header.Len V1header.Snaplen V1header.Mac V1header.Net
  V1header.Sec V1header.Usec V1header.getStatus V1header.clearStatus
  V2header.Status V2header.Len V2header.Snaplen V2header.Mac V2header.Net
  V2header.Sec V2header.Nsec V2header.VlanTci V2header.VlanTpid
  V2header.getStatus V2header.clearStatus
  TpacketHdrV1.BlockStatus TpacketHdrV1.NumPkts TpacketHdrV1.OffsetToFirstPkt
  TpacketHdrV1.BlkLen TpacketHdrV1.SeqNum TpacketHdrV1.TsFirstPkt_Sec
  TpacketHdrV1.TsFirstPkt_Usec TpacketHdrV1.TsLastPkt_Sec
  TpacketHdrV1.TsLastPkt_Usec V3header.getStatus V3header.clearStatus
  TpV1Hdr.Status TpV1Hdr.Len TpV1Hdr.Snaplen TpV1Hdr.Mac TpV1Hdr.Net
  TpV1Hdr.Sec TpV1Hdr.Usec TpV1Hdr.getStatus TpV1Hdr.clearStatus
  TpV2Hdr.Status TpV2Hdr.Len TpV2Hdr.Snaplen TpV2Hdr.Mac TpV2Hdr.Net
  TpV2Hdr.Sec TpV2Hdr.Nsec TpV2Hdr.Vlan_tci TpV2Hdr.Vlan_tpid
  TpV2Hdr.getStatus TpV2Hdr.clearStatus
  TpV3BlockHdr.Block_status TpV3BlockHdr.Num_pkts
  TpV3BlockHdr.Offset_to_first_pkt TpV3BlockHdr.Blk_len TpV3BlockHdr.Seq_num
  TpV3Hdr.getStatus TpV3Hdr.clearStatus
  load16 load32 load64 store32 store64 : layout.

(** The store of [clearStatus] at [a + 0] touches the [n] bytes from [a]. *)
Lemma same_outside_clear n m a :
  same_outside m (store_le n m (a + 0) 0) a (Z.of_nat n).
Proof.
  rewrite Z.add_0_r. apply same_outside_store_le.
Qed.

Ltac fields_kept Hout :=
  autounfold with layout;
  repeat match goal with |- (_, _) = (_, _) => f_equal end;
  apply (same_outside_load_le _ _ _ _ _ _ Hout); cbn; lia.

Ltac clear_status_variant n :=
  let Hout := fresh "Hout" in
  match goal with
  | |- ?getStatus (?clearStatus ?m ?h) ?h = 0 /\ same_outside ?m _ ?a _ /\ _ =>
      assert (Hout : same_outside m (clearStatus m h) a (Z.of_nat n))
        by (autounfold with layout; apply same_outside_clear);
      split; [ autounfold with layout; rewrite load_store_le; reflexivity
             | split; [ exact Hout
                      | split; [ apply same_outside_keeps_slices; exact Hout
                               | fields_kept Hout ] ] ]
  end.

(** C6: for every variant, [clearStatus] sets the status word to zero, so
    that [getStatus] then returns 0, and changes nothing else: every byte of
    memory outside the status word (8 bytes for v1, 4 bytes for v2 and for
    the v3 block) is as it was, hence so are the header's other fields and
    the packet data (every slice that lies outside the status word). *)
Theorem clearStatus_clears_only_status :
  (forall m h, let m' := V1header.clearStatus m h in
      V1header.getStatus m' h = 0
      /\ same_outside m m' (V1header.addr h) 8
      /\ keeps_slices m m' (V1header.addr h) 8
      /\ (V1header.Len m' h, V1header.Snaplen m' h, V1header.Mac m' h,
          V1header.Net m' h, V1header.Sec m' h, V1header.Usec m' h)
         = (V1header.Len m h, V1header.Snaplen m h, V1header.Mac m h,
            V1header.Net m h, V1header.Sec m h, V1header.Usec m h))
  /\ (forall m h, let m' := V2header.clearStatus m h in
      V2header.getStatus m' h = 0
      /\ same_outside m m' (V2header.addr h) 4
      /\ keeps_slices m m' (V2header.addr h) 4
      /\ (V2header.Len m' h, V2header.Snaplen m' h, V2header.Mac m' h,
          V2header.Net m' h, V2header.Sec m' h, V2header.Nsec m' h,
          V2header.VlanTci m' h, V2header.VlanTpid m' h)
         = (V2header.Len m h, V2header.Snaplen m h, V2header.Mac m h,
            V2header.Net m h, V2header.Sec m h, V2header.Nsec m h,
            V2header.VlanTci m h, V2header.VlanTpid m h))
  /\ (forall m w, let m' := V3header.clearStatus m w in
      let bh := V3header.Blockhdr w in
      V3header.getStatus m' w = 0
      /\ same_outside m m' bh 4
      /\ keeps_slices m m' bh 4
      /\ (TpacketHdrV1.NumPkts m' bh, TpacketHdrV1.OffsetToFirstPkt m' bh,
          TpacketHdrV1.BlkLen m' bh, TpacketHdrV1.SeqNum m' bh,
          TpacketHdrV1.TsFirstPkt_Sec m' bh, TpacketHdrV1.TsFirstPkt_Usec m' bh,
          TpacketHdrV1.TsLastPkt_Sec m' bh, TpacketHdrV1.TsLastPkt_Usec m' bh)
         = (TpacketHdrV1.NumPkts m bh, TpacketHdrV1.OffsetToFirstPkt m bh,
            TpacketHdrV1.BlkLen m bh, TpacketHdrV1.SeqNum m bh,
            TpacketHdrV1.TsFirstPkt_Sec m bh, TpacketHdrV1.TsFirstPkt_Usec m bh,
            TpacketHdrV1.TsLastPkt_Sec m bh, TpacketHdrV1.TsLastPkt_Usec m bh))
  /\ (forall m h, let m' := TpV1Hdr.clearStatus m h in
      TpV1Hdr.getStatus m' h = 0
      /\ same_outside m m' (TpV1Hdr.addr h) 8
      /\ keeps_slices m m' (TpV1Hdr.addr h) 8
      /\ (TpV1Hdr.Len m' h, TpV1Hdr.Snaplen m' h, TpV1Hdr.Mac m' h,
          TpV1Hdr.Net m' h, TpV1Hdr.Sec m' h, TpV1Hdr.Usec m' h)
         = (TpV1Hdr.Len m h, TpV1Hdr.Snaplen m h, TpV1Hdr.Mac m h,
            TpV1Hdr.Net m h, TpV1Hdr.Sec m h, TpV1Hdr.Usec m h))
  /\ (forall m h, let m' := TpV2Hdr.clearStatus m h in
      TpV2Hdr.getStatus m' h = 0
      /\ same_outside m m' (TpV2Hdr.addr h) 4
      /\ keeps_slices m m' (TpV2Hdr.addr h) 4
      /\ (TpV2Hdr.Len m' h, TpV2Hdr.Snaplen m' h, TpV2Hdr.Mac m' h,
          TpV2Hdr.Net m' h, TpV2Hdr.Sec m' h, TpV2Hdr.Nsec m' h,
          TpV2Hdr.Vlan_tci m' h, TpV2Hdr.Vlan_tpid m' h)
         = (TpV2Hdr.Len m h, TpV2Hdr.Snaplen m h, TpV2Hdr.Mac m h,
            TpV2Hdr.Net m h, TpV2Hdr.Sec m h, TpV2Hdr.Nsec m h,
            TpV2Hdr.Vlan_tci m h, TpV2Hdr.Vlan_tpid m h))
  /\ (forall m w, let m' := TpV3Hdr.clearStatus m w in
      let bh := TpV3Hdr.blockhdr w in
      TpV3Hdr.getStatus m' w = 0
      /\ same_outside m m' bh 4
      /\ keeps_slices m m' bh 4
      /\ (TpV3BlockHdr.Num_pkts m' bh, TpV3BlockHdr.Offset_to_first_pkt m' bh,
          TpV3BlockHdr.Blk_len m' bh, TpV3BlockHdr.Seq_num m' bh)
         = (TpV3BlockHdr.Num_pkts m bh, TpV3BlockHdr.Offset_to_first_pkt m bh,
            TpV3BlockHdr.Blk_len m bh, TpV3BlockHdr.Seq_num m bh)).
Proof.
  repeat apply conj; intros m h; cbv zeta.
  - clear_status_variant 8%nat.
  - clear_status_variant 4%nat.
  - clear_status_variant 4%nat.
  - clear_status_variant 8%nat.
  - clear_status_variant 4%nat.
  - clear_status_variant 4%nat.
Qed.

Lemma clearStatus_clears_only_status_witness :
  let m := mem_of_bytes Sample.base Sample.v1_frame in
  let h := V1header.at_ Sample.base in
  V1header.getStatus m h = 1
  /\ V1header.getStatus (V1header.clearStatus m h) h = 0
  /\ V1header.Snaplen (V1header.clearStatus m h) h = 60
  /\ V1header.clearStatus m h (Sample.base + 8) = m (Sample.base + 8).
Proof.
  intros m h.
  destruct (proj1 clearStatus_clears_only_status m h) as (Hz & Hout & _ & _).
  split; [reflexivity|]. split; [exact Hz|]. split; [reflexivity|].
  apply Hout. right. cbn. lia.
Defined.

(** ** [next] on v3 blocks *)

Lemma calls_S {H : Type} `{header H} (m : mem) (k : nat) (w : H) :
  calls m (S k) w
  = (snd (next m w) :: fst (calls m k (fst (next m w))),
     snd (calls m k (fst (next m w)))).
Proof.
  cbn [calls]. destruct (next m w) as [w' b]. cbn [fst snd].
  destruct (calls m k w') as [bs w'']. reflexivity.
Qed.

Lemma to_uintptr_add p d :
  to_uintptr (to_uintptr p + to_uintptr d) = to_uintptr (p + d).
Proof.
  unfold to_uintptr, to_unsigned. symmetry. apply Z.add_mod. lia.
Qed.

Lemma to_uint32_load32 m a : to_uint32 (load32 m a) = load32 m a.
Proof. apply to_unsigned_id. apply load32_range. Qed.

(** The stride [next] falls back on: the [int] sum of the two fields does not
    wrap, and its alignment is below 2^33. *)
Lemma aligned_stride snaplen mac :
  0 <= snaplen < 2 ^ 32 -> 0 <= mac < 2 ^ 16 ->
  to_int (to_int snaplen + to_int mac) = snaplen + mac
  /\ 0 <= tpAlign (snaplen + mac) < 2 ^ 33.
Proof.
  intros Hs Hm.
  rewrite (to_int_small snaplen), (to_int_small mac) by lia.
  rewrite (to_int_small (snaplen + mac)) by lia.
  split; [reflexivity|].
  rewrite tpAlign_spec by (unfold maxInt; lia).
  pose proof (Z.div_mod (snaplen + mac + 15) 16 ltac:(lia)).
  pose proof (Z.mod_pos_bound (snaplen + mac + 15) 16 ltac:(lia)). lia.
Qed.

Lemma V3header_next_used m w :
  V3header.used (fst (V3header.next m w)) = to_uint32 (V3header.used w + 1).
Proof.
  unfold V3header.next. cbn [V3header.used V3header.Blockhdr].
  destruct (_ <=? _); reflexivity.
Qed.

Lemma V3header_next_block m w :
  V3header.Block (fst (V3header.next m w)) = V3header.Block w
  /\ V3header.Blockhdr (fst (V3header.next m w)) = V3header.Blockhdr w.
Proof.
  unfold V3header.next. cbn [V3header.used V3header.Blockhdr V3header.Block].
  destruct (_ <=? _); split; reflexivity.
Qed.

Lemma V3header_next_result m w :
  snd (V3header.next m w)
  = negb (TpacketHdrV1.NumPkts m (V3header.Blockhdr w)
          <=? to_uint32 (V3header.used w + 1)).
Proof.
  unfold V3header.next. cbn [V3header.used V3header.Blockhdr].
  destruct (_ <=? _); reflexivity.
Qed.

Lemma V3header_next_packet m w :
  to_uint32 (V3header.used w + 1) < TpacketHdrV1.NumPkts m (V3header.Blockhdr w) ->
  V3header.Packet (fst (V3header.next m w))
  = to_uintptr
      (V3header.Packet w
       + if TpPacket.TpNextOffset m (V3header.Packet w) =? 0
         then tpAlign (TpPacket.Tp_snaplen m (V3header.Packet w)
                       + TpPacket.Tp_mac m (V3header.Packet w))
         else TpPacket.TpNextOffset m (V3header.Packet w)).
Proof.
  intros Hlt. unfold V3header.next.
  cbn [V3header.used V3header.Blockhdr V3header.Packet].
  destruct (Z.leb_spec (TpacketHdrV1.NumPkts m (V3header.Blockhdr w))
                       (to_uint32 (V3header.used w + 1))) as [Hge|_]; [lia|].
  cbn [fst V3header.Packet].
  destruct (TpPacket.TpNextOffset m (V3header.Packet w) =? 0); cbn [negb].
  - rewrite to_uintptr_add.
    destruct (aligned_stride (TpPacket.Tp_snaplen m (V3header.Packet w))
                (TpPacket.Tp_mac m (V3header.Packet w))) as [E _];
      [apply load32_range | apply load16_range |].
    rewrite E. reflexivity.
  - apply to_uintptr_add.
Qed.

Lemma TpV3Hdr_next_used m w :
  TpV3Hdr.used (fst (TpV3Hdr.next m w)) = to_uint32 (TpV3Hdr.used w + 1).
Proof.
  unfold TpV3Hdr.next. cbn [TpV3Hdr.used TpV3Hdr.blockhdr].
  destruct (_ <=? _); reflexivity.
Qed.

Lemma TpV3Hdr_next_block m w :
  TpV3Hdr.block (fst (TpV3Hdr.next m w)) = TpV3Hdr.block w
  /\ TpV3Hdr.blockhdr (fst (TpV3Hdr.next m w)) = TpV3Hdr.blockhdr w.
Proof.
  unfold TpV3Hdr.next. cbn [TpV3Hdr.used TpV3Hdr.blockhdr TpV3Hdr.block].
  destruct (_ <=? _); split; reflexivity.
Qed.

Lemma TpV3Hdr_next_result m w :
  snd (TpV3Hdr.next m w)
  = negb (TpV3BlockHdr.Num_pkts m (TpV3Hdr.blockhdr w)
          <=? to_uint32 (TpV3Hdr.used w + 1)).
Proof.
  unfold TpV3Hdr.next. cbn [TpV3Hdr.used TpV3Hdr.blockhdr].
  unfold TpV3BlockHdr.Num_pkts. rewrite to_uint32_load32.
  destruct (_ <=? _); reflexivity.
Qed.

Lemma TpV3Hdr_next_packet m w :
  to_uint32 (TpV3Hdr.used w + 1) < TpV3BlockHdr.Num_pkts m (TpV3Hdr.blockhdr w) ->
  TpV3Hdr.packet (fst (TpV3Hdr.next m w))
  = to_uintptr
      (TpV3Hdr.packet w
       + if TpV3Packet.Next_offset m (TpV3Hdr.packet w) =? 0
         then tpAlign (TpV3Packet.Snaplen m (TpV3Hdr.packet w)
                       + TpV3Packet.Mac m (TpV3Hdr.packet w))
         else TpV3Packet.Next_offset m (TpV3Hdr.packet w)).
Proof.
  intros Hlt. unfold TpV3Hdr.next.
  cbn [TpV3Hdr.used TpV3Hdr.blockhdr TpV3Hdr.packet].
  change (to_uint32 (TpV3BlockHdr.Num_pkts m (TpV3Hdr.blockhdr w)))
    with (to_uint32 (load32 m (TpV3Hdr.blockhdr w + 4))).
  rewrite to_uint32_load32.
  change (load32 m (TpV3Hdr.blockhdr w + 4))
    with (TpV3BlockHdr.Num_pkts m (TpV3Hdr.blockhdr w)).
  destruct (Z.leb_spec (TpV3BlockHdr.Num_pkts m (TpV3Hdr.blockhdr w))
                       (to_uint32 (TpV3Hdr.used w + 1))) as [Hge|_]; [lia|].
  cbn [fst TpV3Hdr.packet].
  destruct (TpV3Packet.Next_offset m (TpV3Hdr.packet w) =? 0); cbn [negb].
  - rewrite to_uintptr_add.
    destruct (aligned_stride (TpV3Packet.Snaplen m (TpV3Hdr.packet w))
                (TpV3Packet.Mac m (TpV3Hdr.packet w))) as [E _];
      [apply load32_range | apply load16_range |].
    rewrite E. reflexivity.
  - apply to_uintptr_add.
Qed.

Lemma V3header_calls m : forall k w,
  0 <= V3header.used w -> V3header.used w + Z.of_nat k < 2 ^ 32 ->
  fst (calls m k w)
  = map (fun i => negb (TpacketHdrV1.NumPkts m (V3header.Blockhdr w)
                        <=? V3header.used w + 1 + Z.of_nat i)) (seq 0 k)
  /\ V3header.used (snd (calls m k w)) = V3header.used w + Z.of_nat k
  /\ V3header.Blockhdr (snd (calls m k w)) = V3header.Blockhdr w.
Proof.
  induction k as [|k IH]; intros w H0 Hk.
  - cbn [calls fst snd seq map]. repeat split. lia.
  - rewrite calls_S. cbn [next V3header_header fst snd].
    assert (U : V3header.used (fst (V3header.next m w)) = V3header.used w + 1).
    { rewrite V3header_next_used. apply to_unsigned_id. lia. }
    destruct (V3header_next_block m w) as [_ B].
    destruct (IH (fst (V3header.next m w))) as (Hres & Hused & Hbh); [lia|lia|].
    rewrite Hres, Hused, Hbh, U, B. repeat split; [|lia].
    cbn [seq map]. f_equal.
    + rewrite V3header_next_result. unfold to_uint32.
      rewrite to_unsigned_id by lia. do 2 f_equal. lia.
    + rewrite <- seq_shift, map_map. apply map_ext. intros i.
      do 2 f_equal. lia.
Qed.

Lemma V3header_calls_pattern m block :
  1 <= TpacketHdrV1.NumPkts m (TpBlock.Hdr block) ->
  fst (calls m (Z.to_nat (TpacketHdrV1.NumPkts m (TpBlock.Hdr block)))
             (V3header.initV3Wrapper m block))
  = repeat true (Z.to_nat (TpacketHdrV1.NumPkts m (TpBlock.Hdr block)) - 1)
    ++ [false].
Proof.
  intros Hn.
  pose proof (load32_range m (TpBlock.Hdr block + 4)) as R.
  fold (TpacketHdrV1.NumPkts m (TpBlock.Hdr block)) in R.
  set (n := TpacketHdrV1.NumPkts m (TpBlock.Hdr block)) in *.
  destruct (V3header_calls m (Z.to_nat n) (V3header.initV3Wrapper m block))
    as (Hres & _ & _).
  { cbn. lia. }
  { cbn [V3header.initV3Wrapper V3header.used]. lia. }
  rewrite Hres. cbn [V3header.initV3Wrapper V3header.used V3header.Blockhdr].
  fold n.
  destruct (Z.to_nat n) as [|k] eqn:Ek; [lia|].
  replace (S k - 1)%nat with k by lia.
  rewrite seq_S, map_app. cbn [map Nat.add]. f_equal.
  - transitivity (map (fun _ : nat => true) (seq 0 k)).
    + apply map_ext_in. intros i Hi. apply in_seq in Hi.
      destruct (Z.leb_spec n (0 + 1 + Z.of_nat i)); [lia|reflexivity].
    + rewrite map_const, length_seq. reflexivity.
  - destruct (Z.leb_spec n (0 + 1 + Z.of_nat k)); [reflexivity|lia].
Qed.

Lemma V3header_next_false_iff m w :
  snd (V3header.next m w) = false
  <-> TpacketHdrV1.NumPkts m (V3header.Blockhdr w)
      <= to_uint32 (V3header.used w + 1).
Proof.
  rewrite V3header_next_result.
  destruct (Z.leb_spec (TpacketHdrV1.NumPkts m (V3header.Blockhdr w))
                       (to_uint32 (V3header.used w + 1))); cbn [negb];
    split; intros; try lia; try reflexivity; discriminate.
Qed.

(** Along a run that follows the contract, from a fresh wrapper over a block
    that declares at least one packet: the cursor is below the packet count
    while [next] has returned true, and equal to it once [next] has returned
    false. *)
Lemma V3header_run_bound m block w b :
  1 <= TpacketHdrV1.NumPkts m (TpBlock.Hdr block) ->
  run m (V3header.initV3Wrapper m block) w b ->
  V3header.Blockhdr w = TpBlock.Hdr block
  /\ 0 <= V3header.used w
  /\ (b = true -> V3header.used w < TpacketHdrV1.NumPkts m (TpBlock.Hdr block))
  /\ (b = false -> V3header.used w = TpacketHdrV1.NumPkts m (TpBlock.Hdr block)).
Proof.
  intros Hn Hrun.
  pose proof (load32_range m (TpBlock.Hdr block + 4)) as R.
  fold (TpacketHdrV1.NumPkts m (TpBlock.Hdr block)) in R.
  induction Hrun as [|w Hrun IH].
  - cbn [V3header.initV3Wrapper V3header.used V3header.Blockhdr].
    split; [reflexivity|]. split; [lia|]. split; [intros _; lia|discriminate].
  - destruct IH as (Hbh & H0 & Hlt & _). specialize (Hlt eq_refl).
    cbn [next V3header_header].
    destruct (V3header_next_block m w) as [_ B].
    rewrite B, V3header_next_used, V3header_next_result, Hbh.
    unfold to_uint32. rewrite to_unsigned_id by lia.
    repeat split; lia.
Qed.

Lemma TpV3Hdr_calls m : forall k w,
  0 <= TpV3Hdr.used w -> TpV3Hdr.used w + Z.of_nat k < 2 ^ 32 ->
  fst (calls m k w)
  = map (fun i => negb (TpV3BlockHdr.Num_pkts m (TpV3Hdr.blockhdr w)
                        <=? TpV3Hdr.used w + 1 + Z.of_nat i)) (seq 0 k)
  /\ TpV3Hdr.used (snd (calls m k w)) = TpV3Hdr.used w + Z.of_nat k
  /\ TpV3Hdr.blockhdr (snd (calls m k w)) = TpV3Hdr.blockhdr w.
Proof.
  induction k as [|k IH]; intros w H0 Hk.
  - cbn [calls fst snd seq map]. repeat split. lia.
  - rewrite calls_S. cbn [next TpV3Hdr_header fst snd].
    assert (U : TpV3Hdr.used (fst (TpV3Hdr.next m w)) = TpV3Hdr.used w + 1).
    { rewrite TpV3Hdr_next_used. apply to_unsigned_id. lia. }
    destruct (TpV3Hdr_next_block m w) as [_ B].
    destruct (IH (fst (TpV3Hdr.next m w))) as (Hres & Hused & Hbh); [lia|lia|].
    rewrite Hres, Hused, Hbh, U, B. repeat split; [|lia].
    cbn [seq map]. f_equal.
    + rewrite TpV3Hdr_next_result. unfold to_uint32.
      rewrite to_unsigned_id by lia. do 2 f_equal. lia.
    + rewrite <- seq_shift, map_map. apply map_ext. intros i.
      do 2 f_equal. lia.
Qed.

Lemma TpV3Hdr_calls_pattern m block :
  1 <= TpV3BlockHdr.Num_pkts m (TpV3Block.Hdr block) ->
  fst (calls m (Z.to_nat (TpV3BlockHdr.Num_pkts m (TpV3Block.Hdr block)))
             (TpV3Hdr.initV3Wrapper m block))
  = repeat true (Z.to_nat (TpV3BlockHdr.Num_pkts m (TpV3Block.Hdr block)) - 1)
    ++ [false].
Proof.
  intros Hn.
  pose proof (load32_range m (TpV3Block.Hdr block + 4)) as R.
  fold (TpV3BlockHdr.Num_pkts m (TpV3Block.Hdr block)) in R.
  set (n := TpV3BlockHdr.Num_pkts m (TpV3Block.Hdr block)) in *.
  destruct (TpV3Hdr_calls m (Z.to_nat n) (TpV3Hdr.initV3Wrapper m block))
    as (Hres & _ & _).
  { cbn. lia. }
  { cbn [TpV3Hdr.initV3Wrapper TpV3Hdr.used]. lia. }
  rewrite Hres. cbn [TpV3Hdr.initV3Wrapper TpV3Hdr.used TpV3Hdr.blockhdr].
  fold n.
  destruct (Z.to_nat n) as [|k] eqn:Ek; [lia|].
  replace (S k - 1)%nat with k by lia.
  rewrite seq_S, map_app. cbn [map Nat.add]. f_equal.
  - transitivity (map (fun _ : nat => true) (seq 0 k)).
    + apply map_ext_in. intros i Hi. apply in_seq in Hi.
      destruct (Z.leb_spec n (0 + 1 + Z.of_nat i)); [lia|reflexivity].
    + rewrite map_const, length_seq. reflexivity.
  - destruct (Z.leb_spec n (0 + 1 + Z.of_nat k)); [reflexivity|lia].
Qed.

Lemma TpV3Hdr_next_false_iff m w :
  snd (TpV3Hdr.next m w) = false
  <-> TpV3BlockHdr.Num_pkts m (TpV3Hdr.blockhdr w)
      <= to_uint32 (TpV3Hdr.used w + 1).
Proof.
  rewrite TpV3Hdr_next_result.
  destruct (Z.leb_spec (TpV3BlockHdr.Num_pkts m (TpV3Hdr.blockhdr w))
                       (to_uint32 (TpV3Hdr.used w + 1))); cbn [negb];
    split; intros; try lia; try reflexivity; discriminate.
Qed.

Lemma TpV3Hdr_run_bound m block w b :
  1 <= TpV3BlockHdr.Num_pkts m (TpV3Block.Hdr block) ->
  run m (TpV3Hdr.initV3Wrapper m block) w b ->
  TpV3Hdr.blockhdr w = TpV3Block.Hdr block
  /\ 0 <= TpV3Hdr.used w
  /\ (b = true -> TpV3Hdr.used w < TpV3BlockHdr.Num_pkts m (TpV3Block.Hdr block))
  /\ (b = false -> TpV3Hdr.used w = TpV3BlockHdr.Num_pkts m (TpV3Block.Hdr block)).
Proof.
  intros Hn Hrun.
  pose proof (load32_range m (TpV3Block.Hdr block + 4)) as R.
  fold (TpV3BlockHdr.Num_pkts m (TpV3Block.Hdr block)) in R.
  induction Hrun as [|w Hrun IH].
  - cbn [TpV3Hdr.initV3Wrapper TpV3Hdr.used TpV3Hdr.blockhdr].
    split; [reflexivity|]. split; [lia|]. split; [intros _; lia|discriminate].
  - destruct IH as (Hbh & H0 & Hlt & _). specialize (Hlt eq_refl).
    cbn [next TpV3Hdr_header].
    destruct (TpV3Hdr_next_block m w) as [_ B].
    rewrite B, TpV3Hdr_next_used, TpV3Hdr_next_result, Hbh.
    unfold to_uint32. rewrite to_unsigned_id by lia.
    repeat split; lia.
Qed.

(** C2: over a v3 block that declares 3 packets, successive calls of [next]
    on a fresh wrapper return true, true, false; over a block that declares 1
    packet the very first call returns false.  In general [next] returns
    false exactly when the incremented cursor has reached (is not below) the
    block's packet count, so a fresh wrapper over a block of n >= 1 packets
    sees n - 1 times true and then false. *)
Theorem next_v3_true_until_count :
  (forall m block,
      TpacketHdrV1.NumPkts m (TpBlock.Hdr block) = 3 ->
      fst (calls m 3 (V3header.initV3Wrapper m block)) = [true; true; false])
  /\ (forall m block,
      TpacketHdrV1.NumPkts m (TpBlock.Hdr block) = 1 ->
      fst (calls m 1 (V3header.initV3Wrapper m block)) = [false])
  /\ (forall m w,
      snd (V3header.next m w) = false
      <-> TpacketHdrV1.NumPkts m (V3header.Blockhdr w)
          <= to_uint32 (V3header.used w + 1))
  /\ (forall m block,
      1 <= TpacketHdrV1.NumPkts m (TpBlock.Hdr block) ->
      fst (calls m (Z.to_nat (TpacketHdrV1.NumPkts m (TpBlock.Hdr block)))
                 (V3header.initV3Wrapper m block))
      = repeat true (Z.to_nat (TpacketHdrV1.NumPkts m (TpBlock.Hdr block)) - 1)
        ++ [false])
  /\ (forall m block,
      TpV3BlockHdr.Num_pkts m (TpV3Block.Hdr block) = 3 ->
      fst (calls m 3 (TpV3Hdr.initV3Wrapper m block)) = [true; true; false])
  /\ (forall m block,
      TpV3BlockHdr.Num_pkts m (TpV3Block.Hdr block) = 1 ->
      fst (calls m 1 (TpV3Hdr.initV3Wrapper m block)) = [false])
  /\ (forall m w,
      snd (TpV3Hdr.next m w) = false
      <-> TpV3BlockHdr.Num_pkts m (TpV3Hdr.blockhdr w)
          <= to_uint32 (TpV3Hdr.used w + 1))
  /\ (forall m block,
      1 <= TpV3BlockHdr.Num_pkts m (TpV3Block.Hdr block) ->
      fst (calls m (Z.to_nat (TpV3BlockHdr.Num_pkts m (TpV3Block.Hdr block)))
                 (TpV3Hdr.initV3Wrapper m block))
      = repeat true (Z.to_nat (TpV3BlockHdr.Num_pkts m (TpV3Block.Hdr block)) - 1)
        ++ [false]).
Proof.
  repeat apply conj.
  - intros m block H. pose proof (V3header_calls_pattern m block) as P.
    rewrite H in P. apply P. lia.
  - intros m block H. pose proof (V3header_calls_pattern m block) as P.
    rewrite H in P. apply P. lia.
  - exact V3header_next_false_iff.
  - exact V3header_calls_pattern.
  - intros m block H. pose proof (TpV3Hdr_calls_pattern m block) as P.
    rewrite H in P. apply P. lia.
  - intros m block H. pose proof (TpV3Hdr_calls_pattern m block) as P.
    rewrite H in P. apply P. lia.
  - exact TpV3Hdr_next_false_iff.
  - exact TpV3Hdr_calls_pattern.
Qed.

Lemma next_v3_true_until_count_witness :
  let m3 := mem_of_bytes Sample.base Sample.v3_block3 in
  let m1 := mem_of_bytes Sample.base Sample.v3_block1 in
  fst (calls m3 3 (V3header.initV3Wrapper m3 Sample.base)) = [true; true; false]
  /\ fst (calls m1 1 (V3header.initV3Wrapper m1 Sample.base)) = [false]
  /\ fst (calls m3 3 (TpV3Hdr.initV3Wrapper m3 Sample.base)) = [true; true; false]
  /\ fst (calls m1 1 (TpV3Hdr.initV3Wrapper m1 Sample.base)) = [false].
Proof.
  intros m3 m1.
  destruct next_v3_true_until_count as (N3 & N1 & _ & _ & G3 & G1 & _ & _).
  split; [|split; [|split]].
  - apply N3. reflexivity.
  - apply N1. reflexivity.
  - apply G3. reflexivity.
  - apply G1. reflexivity.
Defined.

(** C3: when the cursor has not exhausted the block, [next] returns true and
    moves the current-packet pointer to the current packet's address plus its
    next-offset field when that field is non-zero, and plus
    tpAlign(snaplen + mac) otherwise.  The sum is a [uintptr] sum; it is the
    plain sum whenever the packet lies at least 2^33 bytes below the top of
    the address space. *)
Theorem next_v3_repositions :
  (forall m w,
      to_uint32 (V3header.used w + 1)
      < TpacketHdrV1.NumPkts m (V3header.Blockhdr w) ->
      let p := V3header.Packet w in
      let p' := V3header.Packet (fst (V3header.next m w)) in
      snd (V3header.next m w) = true
      /\ (TpPacket.TpNextOffset m p <> 0 ->
          p' = to_uintptr (p + TpPacket.TpNextOffset m p))
      /\ (TpPacket.TpNextOffset m p = 0 ->
          p' = to_uintptr (p + tpAlign (TpPacket.Tp_snaplen m p
                                        + TpPacket.Tp_mac m p)))
      /\ (0 <= p -> p + 2 ^ 33 <= 2 ^ 64 ->
          (TpPacket.TpNextOffset m p <> 0 ->
           p' = p + TpPacket.TpNextOffset m p)
          /\ (TpPacket.TpNextOffset m p = 0 ->
              p' = p + tpAlign (TpPacket.Tp_snaplen m p
                                + TpPacket.Tp_mac m p))))
  /\ (forall m w,
      to_uint32 (TpV3Hdr.used w + 1)
      < TpV3BlockHdr.Num_pkts m (TpV3Hdr.blockhdr w) ->
      let p := TpV3Hdr.packet w in
      let p' := TpV3Hdr.packet (fst (TpV3Hdr.next m w)) in
      snd (TpV3Hdr.next m w) = true
      /\ (TpV3Packet.Next_offset m p <> 0 ->
          p' = to_uintptr (p + TpV3Packet.Next_offset m p))
      /\ (TpV3Packet.Next_offset m p = 0 ->
          p' = to_uintptr (p + tpAlign (TpV3Packet.Snaplen m p
                                        + TpV3Packet.Mac m p)))
      /\ (0 <= p -> p + 2 ^ 33 <= 2 ^ 64 ->
          (TpV3Packet.Next_offset m p <> 0 ->
           p' = p + TpV3Packet.Next_offset m p)
          /\ (TpV3Packet.Next_offset m p = 0 ->
              p' = p + tpAlign (TpV3Packet.Snaplen m p
                                + TpV3Packet.Mac m p)))).
Proof.
  split; intros m w Hlt p p'.
  - pose proof (V3header_next_packet m w Hlt) as Hp. fold p p' in Hp.
    pose proof (load32_range m (p + 0)) as Ro.
    fold (TpPacket.TpNextOffset m p) in Ro.
    destruct (aligned_stride (TpPacket.Tp_snaplen m p) (TpPacket.Tp_mac m p))
      as [_ Ra]; [apply load32_range | apply load16_range |].
    split; [rewrite V3header_next_result; apply negb_true_iff, Z.leb_gt; exact Hlt|].
    destruct (Z.eqb_spec (TpPacket.TpNextOffset m p) 0) as [E|E].
    + repeat split; intros; try contradiction; rewrite Hp;
        [reflexivity | apply to_unsigned_id; lia].
    + repeat split; intros; try contradiction; rewrite Hp;
        [reflexivity | apply to_unsigned_id; lia].
  - pose proof (TpV3Hdr_next_packet m w Hlt) as Hp. fold p p' in Hp.
    pose proof (load32_range m (p + 0)) as Ro.
    fold (TpV3Packet.Next_offset m p) in Ro.
    destruct (aligned_stride (TpV3Packet.Snaplen m p) (TpV3Packet.Mac m p))
      as [_ Ra]; [apply load32_range | apply load16_range |].
    split; [rewrite TpV3Hdr_next_result; apply negb_true_iff, Z.leb_gt; exact Hlt|].
    destruct (Z.eqb_spec (TpV3Packet.Next_offset m p) 0) as [E|E].
    + repeat split; intros; try contradiction; rewrite Hp;
        [reflexivity | apply to_unsigned_id; lia].
    + repeat split; intros; try contradiction; rewrite Hp;
        [reflexivity | apply to_unsigned_id; lia].
Qed.

Lemma next_v3_repositions_witness :
  let m := mem_of_bytes Sample.base Sample.v3_block3 in
  let w0 := V3header.initV3Wrapper m Sample.base in
  let w1 := fst (V3header.next m w0) in
  let w2 := fst (V3header.next m w1) in
  V3header.Packet w0 = Sample.base + 48
  /\ TpPacket.TpNextOffset m (V3header.Packet w0) = 64
  /\ V3header.Packet w1 = V3header.Packet w0 + 64
  /\ TpPacket.TpNextOffset m (V3header.Packet w1) = 0
  /\ V3header.Packet w2 = V3header.Packet w1 + tpAlign (14 + 48).
Proof.
  intros m w0 w1 w2.
  assert (L0 : to_uint32 (V3header.used w0 + 1)
               < TpacketHdrV1.NumPkts m (V3header.Blockhdr w0))
    by (vm_compute; reflexivity).
  assert (L1 : to_uint32 (V3header.used w1 + 1)
               < TpacketHdrV1.NumPkts m (V3header.Blockhdr w1))
    by (vm_compute; reflexivity).
  destruct (proj1 next_v3_repositions m w0 L0) as (_ & _ & _ & H0).
  destruct (proj1 next_v3_repositions m w1 L1) as (_ & _ & _ & H1).
  split; [reflexivity|]. split; [reflexivity|]. split; [|split; [reflexivity|]].
  - destruct H0 as [H0 _]; [vm_compute; discriminate | vm_compute; discriminate |].
    apply H0. vm_compute. discriminate.
  - destruct H1 as [_ H1]; [vm_compute; discriminate | vm_compute; discriminate |].
    apply H1. reflexivity.
Defined.

(** ** The cursor of a v3 wrapper *)

(** C8, as the code has it: a call of [next] on a cursor below 2^32 - 1 moves
    it up by exactly one.  Over a block that declares at least one packet,
    along any run from a fresh wrapper in which [next] is not called again
    after it has returned false, the cursor stays between 0 and the block's
    packet count, and each further call that the contract allows moves it
    up by one. *)
Theorem next_v3_cursor_bounded :
  (forall m w,
      0 <= V3header.used w < maxUint32 ->
      V3header.used (fst (V3header.next m w)) = V3header.used w + 1)
  /\ (forall m block w b,
      1 <= TpacketHdrV1.NumPkts m (TpBlock.Hdr block) ->
      run m (V3header.initV3Wrapper m block) w b ->
      0 <= V3header.used w <= TpacketHdrV1.NumPkts m (TpBlock.Hdr block)
      /\ (b = true ->
          V3header.used (fst (V3header.next m w)) = V3header.used w + 1))
  /\ (forall m w,
      0 <= TpV3Hdr.used w < maxUint32 ->
      TpV3Hdr.used (fst (TpV3Hdr.next m w)) = TpV3Hdr.used w + 1)
  /\ (forall m block w b,
      1 <= TpV3BlockHdr.Num_pkts m (TpV3Block.Hdr block) ->
      run m (TpV3Hdr.initV3Wrapper m block) w b ->
      0 <= TpV3Hdr.used w <= TpV3BlockHdr.Num_pkts m (TpV3Block.Hdr block)
      /\ (b = true ->
          TpV3Hdr.used (fst (TpV3Hdr.next m w)) = TpV3Hdr.used w + 1)).
Proof.
  repeat apply conj.
  - intros m w Hu. rewrite V3header_next_used. apply to_unsigned_id.
    unfold maxUint32 in Hu. lia.
  - intros m block w b Hn Hrun.
    pose proof (load32_range m (TpBlock.Hdr block + 4)) as R.
    fold (TpacketHdrV1.NumPkts m (TpBlock.Hdr block)) in R.
    destruct (V3header_run_bound m block w b Hn Hrun) as (_ & H0 & Ht & Hf).
    split.
    + destruct b; [specialize (Ht eq_refl) | specialize (Hf eq_refl)]; lia.
    + intros ->. specialize (Ht eq_refl).
      rewrite V3header_next_used. apply to_unsigned_id. lia.
  - intros m w Hu. rewrite TpV3Hdr_next_used. apply to_unsigned_id.
    unfold maxUint32 in Hu. lia.
  - intros m block w b Hn Hrun.
    pose proof (load32_range m (TpV3Block.Hdr block + 4)) as R.
    fold (TpV3BlockHdr.Num_pkts m (TpV3Block.Hdr block)) in R.
    destruct (TpV3Hdr_run_bound m block w b Hn Hrun) as (_ & H0 & Ht & Hf).
    split.
    + destruct b; [specialize (Ht eq_refl) | specialize (Hf eq_refl)]; lia.
    + intros ->. specialize (Ht eq_refl).
      rewrite TpV3Hdr_next_used. apply to_unsigned_id. lia.
Qed.

Lemma next_v3_cursor_bounded_witness :
  let m := mem_of_bytes Sample.base Sample.v3_block3 in
  let w0 := V3header.initV3Wrapper m Sample.base in
  let w1 := fst (V3header.next m w0) in
  let w2 := fst (V3header.next m w1) in
  let w3 := fst (V3header.next m w2) in
  run m w0 w3 false
  /\ V3header.used w1 = V3header.used w0 + 1
  /\ 0 <= V3header.used w3 <= TpacketHdrV1.NumPkts m (TpBlock.Hdr Sample.base)
  /\ V3header.used w3 = 3.
Proof.
  intros m w0 w1 w2 w3.
  assert (R1 : run m w0 w1 true) by exact (run_next m w0 w0 (run_start m w0)).
  assert (R2 : run m w0 w2 true) by exact (run_next m w0 w1 R1).
  assert (R3 : run m w0 w3 false) by exact (run_next m w0 w2 R2).
  destruct next_v3_cursor_bounded as (Hstep & Hrun & _ & _).
  split; [exact R3|]. split; [|split; [|reflexivity]].
  - apply Hstep. vm_compute. split; [discriminate | reflexivity].
  - apply (Hrun m Sample.base w3 false); [vm_compute; discriminate | exact R3].
Defined.

(** C8, as the specification words it, fails twice.  Over a block that
    declares no packet the very first call of [next] (no call has returned
    false before it) leaves the cursor at 1, above the packet count 0.  And
    the cursor is a [uint32]: at 2^32 - 1 a call wraps it around to 0. *)
Lemma next_v3_cursor_exceeds_empty_block :
  let m := mem_of_bytes Sample.base Sample.v3_block0 in
  let w0 := V3header.initV3Wrapper m Sample.base in
  let w1 := fst (V3header.next m w0) in
  let wmax := V3header.mk Sample.base (Sample.base + 8) (Sample.base + 48)
                          maxUint32 in
  run m w0 w1 false
  /\ TpacketHdrV1.NumPkts m (V3header.Blockhdr w0) = 0
  /\ V3header.used w1 = 1
  /\ ~ V3header.used w1 <= TpacketHdrV1.NumPkts m (V3header.Blockhdr w1)
  /\ V3header.used (fst (V3header.next m wmax)) = 0
  /\ ~ V3header.used wmax <= V3header.used (fst (V3header.next m wmax))
  /\ TpV3Hdr.used (fst (TpV3Hdr.next m (TpV3Hdr.initV3Wrapper m Sample.base)))
     = 1.
Proof.
  intros m w0 w1 wmax.
  split; [exact (run_next m w0 w0 (run_start m w0))|].
  repeat split; try (vm_compute; congruence).
Qed.

(** ** Byte strings in memory *)

Lemma length_load_bytes n : forall m a, length (load_bytes m a n) = n.
Proof.
  induction n as [|n IH]; intros m a; cbn [load_bytes length]; [|rewrite IH];
    reflexivity.
Qed.

Lemma store_bytes_other bs : forall m a x,
  x < a \/ a + Z.of_nat (length bs) <= x -> store_bytes m a bs x = m x.
Proof.
  induction bs as [|b bs IH]; intros m a x H.
  - reflexivity.
  - cbn [store_bytes length] in *. rewrite IH by lia.
    destruct (Z.eqb_spec x a); [lia|reflexivity].
Qed.

Lemma load_store_bytes bs : forall m a,
  load_bytes (store_bytes m a bs) a (length bs) = bs.
Proof.
  induction bs as [|b bs IH]; intros m a.
  - reflexivity.
  - cbn [store_bytes length load_bytes]. rewrite IH.
    rewrite store_bytes_other by lia. rewrite Z.eqb_refl. reflexivity.
Qed.

Lemma load_bytes_app n1 : forall n2 m a,
  load_bytes m a (n1 + n2)
  = load_bytes m a n1 ++ load_bytes m (a + Z.of_nat n1) n2.
Proof.
  induction n1 as [|n1 IH]; intros n2 m a.
  - cbn [load_bytes app Nat.add Z.of_nat]. rewrite Z.add_0_r. reflexivity.
  - cbn [load_bytes app Nat.add]. rewrite IH. do 3 f_equal. lia.
Qed.

Lemma firstn_load_bytes k n m a :
  (k <= n)%nat -> firstn k (load_bytes m a n) = load_bytes m a k.
Proof.
  intros H. replace n with (k + (n - k))%nat by lia.
  rewrite load_bytes_app, firstn_app, length_load_bytes, Nat.sub_diag.
  cbn [firstn]. rewrite app_nil_r. apply firstn_all2.
  rewrite length_load_bytes. lia.
Qed.

Lemma skipn_load_bytes k n m a :
  (k <= n)%nat ->
  skipn k (load_bytes m a n) = load_bytes m (a + Z.of_nat k) (n - k).
Proof.
  intros H. replace n with (k + (n - k))%nat at 1 by lia.
  rewrite load_bytes_app, skipn_app, length_load_bytes, Nat.sub_diag.
  cbn [skipn]. rewrite skipn_all2 by (rewrite length_load_bytes; lia).
  reflexivity.
Qed.

Lemma load_bytes_store_bytes_disjoint n m a b bs :
  a + Z.of_nat n <= b \/ b + Z.of_nat (length bs) <= a ->
  load_bytes (store_bytes m b bs) a n = load_bytes m a n.
Proof.
  intros H. apply load_bytes_ext. intros x Hx. apply store_bytes_other. lia.
Qed.

(** ** The runtime's operations where they succeed *)

Lemma bind_ok {A B : Type} (c : Go A) (k : A -> Go B) hp a hp' :
  c hp = Ok (a, hp') -> bind c k hp = k a hp'.
Proof. intros E. unfold bind. rewrite E. reflexivity. Qed.

Lemma bind_panic {A B : Type} (c : Go A) (k : A -> Go B) hp p :
  c hp = Panic p -> bind c k hp = Panic p.
Proof. intros E. unfold bind. rewrite E. reflexivity. Qed.

Lemma make_bytes_ok n hp :
  0 <= n ->
  make_bytes n hp
  = Ok (mkSlice (brk hp) 0 n,
        mkHeap (store_bytes (bytes hp) (brk hp) (repeat x00 (Z.to_nat n)))
               (brk hp + n)).
Proof.
  intros H. unfold make_bytes.
  destruct (Z.ltb_spec n 0); [lia|reflexivity].
Qed.

Lemma slice_lo_hi_ok s lo hi hp :
  0 <= lo <= hi -> hi <= Cap s ->
  slice_lo_hi s lo hi hp = Ok (mkSlice (Data s + lo) (hi - lo) (Cap s - lo), hp).
Proof.
  intros H1 H2. unfold slice_lo_hi.
  destruct (Z.ltb_spec hi 0); [lia|]. destruct (Z.ltb_spec (Cap s) hi); [lia|].
  destruct (Z.ltb_spec lo 0); [lia|]. destruct (Z.ltb_spec hi lo); [lia|].
  reflexivity.
Qed.

Lemma slice_lo_ok s lo hp :
  0 <= lo <= Len s ->
  slice_lo s lo hp = Ok (mkSlice (Data s + lo) (Len s - lo) (Cap s - lo), hp).
Proof.
  intros H. unfold slice_lo.
  destruct (Z.ltb_spec lo 0); [lia|]. destruct (Z.ltb_spec (Len s) lo); [lia|].
  reflexivity.
Qed.

Lemma append_in_place s xs hp :
  Len s + Z.of_nat (length xs) <= Cap s ->
  append s xs hp
  = Ok (mkSlice (Data s) (Len s + Z.of_nat (length xs)) (Cap s),
        mkHeap (store_bytes (bytes hp) (Data s + Len s) xs) (brk hp)).
Proof.
  intros H. unfold append. cbv zeta.
  destruct (Z.leb_spec (Len s + Z.of_nat (length xs)) (Cap s)); [reflexivity|lia].
Qed.

(** [append] never panics. *)
Lemma append_total s xs hp : exists r, append s xs hp = Ok r.
Proof.
  unfold append. cbv zeta. destruct (_ <=? _); eexists; reflexivity.
Qed.

(** ** [insertVlanHeader] *)

Lemma insertVlanHeader_passthrough data tci opts hp :
  tci = 0 \/ addVLANHeader opts = false ->
  insertVlanHeader data tci opts hp = Ok (data, hp).
Proof.
  intros [-> | E]; unfold insertVlanHeader.
  - reflexivity.
  - rewrite E. cbn [negb]. rewrite orb_true_r. reflexivity.
Qed.

Lemma insertVlanHeader_active tci opts :
  tci <> 0 -> addVLANHeader opts = true ->
  (tci =? 0) || negb (addVLANHeader opts) = false.
Proof.
  intros Ht Ho. rewrite Ho. apply Z.eqb_neq in Ht. rewrite Ht. reflexivity.
Qed.

(** The tagged copy: where it is, how long it is and what it holds. *)
Lemma insertVlanHeader_tagged data tci opts hp :
  tci <> 0 -> addVLANHeader opts = true ->
  valid_slice data -> fresh_for hp (Len data + VlanHlen) data ->
  12 <= Len data ->
  exists m',
    insertVlanHeader data tci opts hp
    = Ok (mkSlice (brk hp) (Len data + 4) (Len data + 4),
          mkHeap m' (brk hp + (Len data + 4)))
    /\ load_bytes m' (brk hp) (Z.to_nat (Len data + 4))
       = load_bytes (bytes hp) (Data data) 12 ++ vlan_tag tci
         ++ load_bytes (bytes hp) (Data data + 12) (Z.to_nat (Len data - 12))
    /\ same_outside (bytes hp) m' (brk hp) (Len data + 4).
Proof.
  intros Ht Ho (HL & HC) Hfresh H12.
  unfold maxAlloc in HC. unfold fresh_for, VlanHlen in Hfresh.
  unfold insertVlanHeader. rewrite insertVlanHeader_active by assumption.
  change VlanHlen with 4. change (EthAlen * 2) with 12.
  rewrite to_int_small by lia.
  erewrite bind_ok by (apply make_bytes_ok; lia).
  erewrite bind_ok by (apply slice_lo_hi_ok; lia).
  unfold read at 1. unfold bind at 1.
  unfold slice_bytes. cbn [bytes brk Data Len Cap].
  rewrite Z.add_0_r. change (Z.to_nat (12 - 0)) with 12%nat.
  set (m0 := bytes hp) in *. set (b := brk hp) in *. set (N := Len data) in *.
  set (m1 := store_bytes m0 b (repeat x00 (Z.to_nat (N + 4)))).
  assert (O1 : same_outside m0 m1 b (N + 4)).
  { intros x Hx. apply store_bytes_other. rewrite repeat_length. lia. }
  assert (E1 : load_bytes m1 (Data data) 12 = load_bytes m0 (Data data) 12).
  { apply load_bytes_ext. intros x Hx. apply O1. lia. }
  rewrite E1. set (hdb := load_bytes m0 (Data data) 12).
  assert (Lhd : length hdb = 12%nat) by apply length_load_bytes.
  erewrite bind_ok
    by (apply append_in_place; cbn [Len Cap]; rewrite Lhd; lia).
  cbn [bytes brk Data Len Cap]. rewrite Lhd, Z.add_0_r.
  change (0 + Z.of_nat 12) with 12.
  set (m2 := store_bytes m1 b hdb).
  fold (vlan_tag tci).
  erewrite bind_ok
    by (apply append_in_place; cbn [Len Cap];
        change (length (vlan_tag tci)) with 4%nat; lia).
  cbn [bytes brk Data Len Cap].
  change (12 + Z.of_nat (length (vlan_tag tci))) with 16.
  set (m3 := store_bytes m2 (b + 12) (vlan_tag tci)).
  erewrite bind_ok by (apply slice_lo_ok; lia).
  unfold read at 1. unfold bind at 1.
  unfold slice_bytes. cbn [bytes brk Data Len Cap]. fold N.
  assert (O2 : same_outside m1 m2 b (N + 4)).
  { intros x Hx. apply store_bytes_other. rewrite Lhd. lia. }
  assert (O3 : same_outside m2 m3 b (N + 4)).
  { intros x Hx. apply store_bytes_other.
    change (length (vlan_tag tci)) with 4%nat. lia. }
  assert (E3 : load_bytes m3 (Data data + 12) (Z.to_nat (N - 12))
               = load_bytes m0 (Data data + 12) (Z.to_nat (N - 12))).
  { apply load_bytes_ext. intros x Hx.
    rewrite O3, O2, O1 by lia. reflexivity. }
  rewrite E3. set (tlb := load_bytes m0 (Data data + 12) (Z.to_nat (N - 12))).
  assert (Ltl : length tlb = Z.to_nat (N - 12)) by apply length_load_bytes.
  rewrite append_in_place by (cbn [Len Cap]; rewrite Ltl; lia).
  cbn [bytes brk Data Len Cap]. rewrite Ltl.
  replace (16 + Z.of_nat (Z.to_nat (N - 12))) with (N + 4) by lia.
  set (m4 := store_bytes m3 (b + 16) tlb).
  exists m4. split; [reflexivity|]. split.
  - replace (Z.to_nat (N + 4)) with (12 + (4 + Z.to_nat (N - 12)))%nat by lia.
    rewrite !load_bytes_app. f_equal; [|f_equal].
    + unfold m4, m3.
      rewrite !load_bytes_store_bytes_disjoint
        by (change (length (vlan_tag tci)) with 4%nat; lia).
      rewrite <- Lhd. apply load_store_bytes.
    + unfold m4.
      rewrite load_bytes_store_bytes_disjoint by lia.
      apply (load_store_bytes (vlan_tag tci)).
    + replace (b + Z.of_nat 12 + Z.of_nat 4) with (b + 16) by lia.
      rewrite <- Ltl. apply load_store_bytes.
  - intros x Hx. unfold m4. rewrite store_bytes_other by (rewrite Ltl; lia).
    rewrite O3, O2, O1 by lia. reflexivity.
Qed.

Lemma land_0xff x : Z.land x 0xff = x mod 256.
Proof. change 0xff with (Z.ones 8). apply Z.land_ones. lia. Qed.




(** ** Short payloads *)

Lemma insertVlanHeader_short data tci opts hp :
  tci <> 0 -> addVLANHeader opts = true -> 0 <= Len data < 12 ->
  insertVlanHeader data tci opts hp
  = Panic (if Cap data <? 12 then boundsSliceAcap 12 (Cap data)
           else boundsSliceB 12 (Len data)).
Proof.
  intros Ht Ho HL.
  unfold insertVlanHeader. rewrite insertVlanHeader_active by assumption.
  change VlanHlen with 4. change (EthAlen * 2) with 12.
  rewrite to_int_small by lia.
  erewrite bind_ok by (apply make_bytes_ok; lia).
  destruct (Z.ltb_spec (Cap data) 12) as [Hcap|Hcap].
  - apply bind_panic. unfold slice_lo_hi. cbn [orb Z.ltb Z.compare].
    destruct (Z.ltb_spec (Cap data) 12); [reflexivity|lia].
  - erewrite bind_ok by (apply slice_lo_hi_ok; lia).
    unfold read at 1. unfold bind at 1.
    match goal with
    | |- bind (append ?s ?xs) _ ?h = _ =>
        destruct (append_total s xs h) as [[eth1 hp1] E1]
    end.
    rewrite (bind_ok _ _ _ _ _ E1).
    destruct (append_total eth1 (vlan_tag tci) hp1) as [[eth2 hp2] E2].
    fold (vlan_tag tci). rewrite (bind_ok _ _ _ _ _ E2).
    apply bind_panic. unfold slice_lo. cbn [orb Z.ltb Z.compare].
    destruct (Z.ltb_spec (Len data) 12); [reflexivity|lia].
Qed.




(** * Further properties of the accessors *)

(** ** [getData] *)

Lemma makeSlice_valid a n : 0 <= n < 2 ^ 32 -> valid_slice (makeSlice a n).
Proof.
  intros H. unfold valid_slice, makeSlice, maxAlloc. cbn [Len Cap]. lia.
Qed.

Lemma to_uintptr_field p off :
  mapped p -> 0 <= off < 2 ^ 33 ->
  to_uintptr (to_uintptr p + to_uintptr off) = p + off.
Proof.
  intros [H0 H1] Ho. rewrite to_uintptr_add. apply to_unsigned_id. lia.
Qed.

Lemma to_int_load32 m a : to_int (load32 m a) = load32 m a.
Proof. apply to_int_small. pose proof (load32_range m a). lia. Qed.

Lemma to_int_load16 m a : to_int (load16 m a) = load16 m a.
Proof. apply to_int_small. pose proof (load16_range m a). lia. Qed.

(** The tagged copy, in one piece. *)
Lemma insertVlanHeader_tagged_copy data tci opts hp :
  tci <> 0 -> addVLANHeader opts = true ->
  valid_slice data -> fresh_for hp (Len data + VlanHlen) data ->
  12 <= Len data ->
  exists out hp',
    insertVlanHeader data tci opts hp = Ok (out, hp')
    /\ tagged_copy hp data tci out hp'.
Proof.
  intros Ht Ho Hv Hfresh H12.
  destruct (insertVlanHeader_tagged data tci opts hp Ht Ho Hv Hfresh H12)
    as (m' & E & Hres & Hout).
  destruct Hv as (HL & HC).
  eexists. eexists. split; [exact E|].
  unfold tagged_copy. cbn [Data Len Cap bytes brk].
  repeat split; try reflexivity; [|exact Hout].
  unfold slice_bytes at 1. cbn [Data Len]. rewrite Hres.
  unfold slice_bytes.
  rewrite firstn_load_bytes by lia. rewrite skipn_load_bytes by lia.
  do 3 f_equal. lia.
Qed.

Lemma byte_of_Z_land_0xff x : byte_of_Z (Z.land x 0xff) = byte_of_Z x.
Proof.
  unfold byte_of_Z. rewrite land_0xff, Z.mod_mod by lia. reflexivity.
Qed.


Lemma vlan_tag_rev_le_bytes tci :
  vlan_tag tci = [x81; x00] ++ rev (le_bytes 2 tci).
Proof.
  unfold vlan_tag. cbn [le_bytes rev app].
  rewrite !byte_of_Z_land_0xff, Z.shiftr_div_pow2 by lia. reflexivity.
Qed.

Lemma le_decode_le_bytes n : forall v,
  le_decode (le_bytes n v) = v mod 256 ^ Z.of_nat n.
Proof.
  induction n as [|n IH]; intros v.
  - cbn. symmetry. apply Z.mod_1_r.
  - cbn [le_bytes le_decode]. rewrite IH, Z_of_byte_of_Z.
    rewrite Nat2Z.inj_succ, Z.pow_succ_r by lia.
    rewrite Z.rem_mul_r by lia. reflexivity.
Qed.


(** What the body shared by the v2 and v3 [getData] does with the frame's
    bytes [makeSlice a n] and a TCI. *)
Lemma getData_body a n tci opts hp :
  0 <= n < 2 ^ 32 ->
  let data := makeSlice a n in
  (tci = 0 \/ addVLANHeader opts = false ->
   insertVlanHeader data tci opts hp = Ok (data, hp))
  /\ (tci <> 0 -> addVLANHeader opts = true -> 12 <= n ->
      fresh_for hp (n + 4) data ->
      exists out hp',
        insertVlanHeader data tci opts hp = Ok (out, hp')
        /\ tagged_copy hp data tci out hp')
  /\ (tci <> 0 -> addVLANHeader opts = true -> n < 12 ->
      insertVlanHeader data tci opts hp = Panic (boundsSliceAcap 12 n)).
Proof.
  intros Hn data. split; [apply insertVlanHeader_passthrough|]. split.
  - intros Ht Ho H12 Hf.
    apply insertVlanHeader_tagged_copy; try assumption.
    apply makeSlice_valid. exact Hn.
  - intros Ht Ho Hshort.
    rewrite insertVlanHeader_short by (try assumption; cbn; lia).
    cbn [data makeSlice Cap Len].
    destruct (Z.ltb_spec n 12); [reflexivity|lia].
Qed.

(** X2: [getData] on a v1 frame never copies, allocates or panics, whatever
    the options are: it returns the slice header over the [Snaplen] bytes
    that start [Mac] bytes into the frame, and leaves the heap as it was. *)
Theorem getData_v1_zero_copy :
  (forall opts h hp,
      mapped (V1header.addr h) ->
      let m := bytes hp in
      let data := mkSlice (V1header.addr h + V1header.Mac m h)
                          (V1header.Snaplen m h) (V1header.Snaplen m h) in
      V1header.getData opts h hp = Ok (data, hp) /\ valid_slice data)
  /\ (forall opts h hp,
      mapped (TpV1Hdr.addr h) ->
      let m := bytes hp in
      let data := mkSlice (TpV1Hdr.addr h + TpV1Hdr.Mac m h)
                          (TpV1Hdr.Snaplen m h) (TpV1Hdr.Snaplen m h) in
      TpV1Hdr.getData opts h hp = Ok (data, hp) /\ valid_slice data).
Proof.
  split; intros opts h hp Hm m data.
  - unfold V1header.getData. cbv zeta. fold m.
    pose proof (load16_range m (V1header.addr h + 16)) as RM.
    pose proof (load32_range m (V1header.addr h + 12)) as RS.
    fold (V1header.Mac m h) in RM. fold (V1header.Snaplen m h) in RS.
    rewrite to_uintptr_field by (try exact Hm; lia).
    rewrite to_int_small by lia.
    split; [reflexivity|]. apply (makeSlice_valid _ _ RS).
  - unfold TpV1Hdr.getData. cbv zeta. fold m.
    pose proof (load16_range m (TpV1Hdr.addr h + 16)) as RM.
    pose proof (load32_range m (TpV1Hdr.addr h + 12)) as RS.
    fold (TpV1Hdr.Mac m h) in RM. fold (TpV1Hdr.Snaplen m h) in RS.
    rewrite to_uintptr_field by (try exact Hm; lia).
    rewrite to_int_small by lia.
    split; [reflexivity|]. apply (makeSlice_valid _ _ RS).
Qed.

Lemma getData_v1_zero_copy_witness :
  let hp := mkHeap (mem_of_bytes Sample.base Sample.v1_frame)
                   (Sample.base + 4096) in
  V1header.getData (mkOptions true) (V1header.at_ Sample.base) hp
  = Ok (mkSlice (Sample.base + 66) 60 60, hp).
Proof.
  intros hp.
  apply (proj1 getData_v1_zero_copy (mkOptions true)
               (V1header.at_ Sample.base) hp).
  unfold mapped, Sample.base. cbn [V1header.addr]. lia.
Defined.

Lemma le_decode_2 tci : le_decode (le_bytes 2 tci) = tci mod 65536.
Proof. exact (le_decode_le_bytes 2 tci). Qed.

(** X3: [getData] on a v2 frame.  With a zero TCI field or VLAN insertion
    off it returns the slice header over the frame's [Snaplen] bytes at
    offset [Mac], heap untouched.  With a non-zero TCI and insertion on, a
    frame of at least 12 captured bytes yields a newly allocated copy with the
    tag 0x81 0x00 and the header's 16-bit TCI, big-endian, after byte 12, and
    only the new array is written; a frame of fewer than 12 captured bytes
    makes it panic at [data[0:12]]. *)
Theorem getData_v2_cases :
  (forall opts h hp,
      mapped (V2header.addr h) ->
      let m := bytes hp in
      let tci := V2header.VlanTci m h in
      let data := mkSlice (V2header.addr h + V2header.Mac m h)
                          (V2header.Snaplen m h) (V2header.Snaplen m h) in
      (tci = 0 \/ addVLANHeader opts = false ->
       V2header.getData opts h hp = Ok (data, hp))
      /\ (tci <> 0 -> addVLANHeader opts = true -> 12 <= V2header.Snaplen m h ->
          fresh_for hp (V2header.Snaplen m h + 4) data ->
          exists out hp',
            V2header.getData opts h hp = Ok (out, hp')
            /\ tagged_copy hp data tci out hp'
            /\ le_decode (rev (skipn 2 (vlan_tag tci))) = tci)
      /\ (tci <> 0 -> addVLANHeader opts = true -> V2header.Snaplen m h < 12 ->
          V2header.getData opts h hp
          = Panic (boundsSliceAcap 12 (V2header.Snaplen m h))))
  /\ (forall opts h hp,
      mapped (TpV2Hdr.addr h) ->
      let m := bytes hp in
      let tci := TpV2Hdr.Vlan_tci m h in
      let data := mkSlice (TpV2Hdr.addr h + TpV2Hdr.Mac m h)
                          (TpV2Hdr.Snaplen m h) (TpV2Hdr.Snaplen m h) in
      (tci = 0 \/ addVLANHeader opts = false ->
       TpV2Hdr.getData opts h hp = Ok (data, hp))
      /\ (tci <> 0 -> addVLANHeader opts = true -> 12 <= TpV2Hdr.Snaplen m h ->
          fresh_for hp (TpV2Hdr.Snaplen m h + 4) data ->
          exists out hp',
            TpV2Hdr.getData opts h hp = Ok (out, hp')
            /\ tagged_copy hp data tci out hp'
            /\ le_decode (rev (skipn 2 (vlan_tag tci))) = tci)
      /\ (tci <> 0 -> addVLANHeader opts = true -> TpV2Hdr.Snaplen m h < 12 ->
          TpV2Hdr.getData opts h hp
          = Panic (boundsSliceAcap 12 (TpV2Hdr.Snaplen m h)))).
Proof.
  split; intros opts h hp Hm m tci data.
  - pose proof (load16_range m (V2header.addr h + 12)) as RM.
    pose proof (load32_range m (V2header.addr h + 8)) as RS.
    pose proof (load16_range m (V2header.addr h + 24)) as RT.
    fold (V2header.Mac m h) in RM. fold (V2header.Snaplen m h) in RS.
    fold (V2header.VlanTci m h) in RT. fold tci in RT.
    assert (E : V2header.getData opts h hp = insertVlanHeader data tci opts hp).
    { unfold V2header.getData. cbv zeta. fold m.
      rewrite to_uintptr_field by (try exact Hm; lia).
      rewrite !to_int_small by lia. reflexivity. }
    rewrite E.
    destruct (getData_body (V2header.addr h + V2header.Mac m h)
                (V2header.Snaplen m h) tci opts hp RS) as (Hpass & Htag & Hshort).
    split; [exact Hpass|]. split; [|exact Hshort].
    intros Ht Ho H12 Hf. destruct (Htag Ht Ho H12 Hf) as (out & hp' & Eo & Hc).
    exists out, hp'. split; [exact Eo|]. split; [exact Hc|].
    rewrite vlan_tag_rev_le_bytes. cbn [app skipn]. rewrite rev_involutive.
    rewrite le_decode_2. apply Z.mod_small. lia.
  - pose proof (load16_range m (TpV2Hdr.addr h + 12)) as RM.
    pose proof (load32_range m (TpV2Hdr.addr h + 8)) as RS.
    pose proof (load16_range m (TpV2Hdr.addr h + 24)) as RT.
    fold (TpV2Hdr.Mac m h) in RM. fold (TpV2Hdr.Snaplen m h) in RS.
    fold (TpV2Hdr.Vlan_tci m h) in RT. fold tci in RT.
    assert (E : TpV2Hdr.getData opts h hp = insertVlanHeader data tci opts hp).
    { unfold TpV2Hdr.getData. cbv zeta. fold m.
      rewrite to_uintptr_field by (try exact Hm; lia).
      rewrite !to_int_small by lia. reflexivity. }
    rewrite E.
    destruct (getData_body (TpV2Hdr.addr h + TpV2Hdr.Mac m h)
                (TpV2Hdr.Snaplen m h) tci opts hp RS) as (Hpass & Htag & Hshort).
    split; [exact Hpass|]. split; [|exact Hshort].
    intros Ht Ho H12 Hf. destruct (Htag Ht Ho H12 Hf) as (out & hp' & Eo & Hc).
    exists out, hp'. split; [exact Eo|]. split; [exact Hc|].
    rewrite vlan_tag_rev_le_bytes. cbn [app skipn]. rewrite rev_involutive.
    rewrite le_decode_2. apply Z.mod_small. lia.
Qed.

Lemma getData_v2_cases_witness :
  let hp := mkHeap (mem_of_bytes Sample.base Sample.v2_frame)
                   (Sample.base + 4096) in
  let h := V2header.at_ Sample.base in
  exists out hp',
    V2header.getData (mkOptions true) h hp = Ok (out, hp')
    /\ tagged_copy hp (mkSlice (Sample.base + 66) 60 60) 0xABC out hp'.
Proof.
  intros hp h.
  assert (Hm : mapped (V2header.addr h))
    by (unfold mapped; vm_compute; split; discriminate).
  destruct (proj1 getData_v2_cases (mkOptions true) h hp Hm) as (_ & Htag & _).
  destruct Htag as (out & hp' & E & Hc & _).
  - vm_compute. discriminate.
  - reflexivity.
  - vm_compute. discriminate.
  - left. vm_compute. discriminate.
  - exists out, hp'. split; [exact E | exact Hc].
Defined.

(** The extension record the cgo-typed v3 wrapper overlays on its own
    [packet] field reads, as its TCI, the upper half of the packet pointer. *)
Lemma TpV3Hdr_overlay_tci w :
  0 <= TpV3Hdr.packet w < 2 ^ 64 ->
  HeaderVariant1.Vlan_tci (TpV3Hdr.field_packet_image w) 0
  = TpV3Hdr.packet w / 2 ^ 32.
Proof.
  intros Hp.
  unfold HeaderVariant1.Vlan_tci, TpV3Hdr.field_packet_image, load32.
  rewrite load_le_store_le_disjoint by (cbn; lia).
  pose proof (load_le_store_le_upper 4 4 (fun _ => x00) 0 (TpV3Hdr.packet w))
    as U.
  change (4 + 4)%nat with 8%nat in U. change (0 + Z.of_nat 4) with (0 + 4) in U.
  rewrite U. clear U.
  change (256 ^ Z.of_nat 4) with (2 ^ 32).
  apply Z.mod_small.
  split; [apply Z.div_pos; lia | apply Z.div_lt_upper_bound; lia].
Qed.

(** X4: [getData] on a v3 block (hand-written layout) decides on the current
    packet's TCI field alone, whatever the packet's status says: zero TCI or
    insertion off gives the slice header over the packet's bytes; otherwise a
    packet of at least 12 captured bytes is copied with a tag that carries the
    low 16 bits of the 32-bit TCI field, and a shorter one makes it panic. *)
Theorem V3header_getData_cases :
  forall opts w hp,
    mapped (V3header.Packet w) ->
    let m := bytes hp in
    let p := V3header.Packet w in
    let tci := TpPacket.Tp_hv1_TpVlanTci m p in
    let data := mkSlice (p + TpPacket.Tp_mac m p)
                        (TpPacket.Tp_snaplen m p) (TpPacket.Tp_snaplen m p) in
    (tci = 0 \/ addVLANHeader opts = false ->
     V3header.getData opts w hp = Ok (data, hp))
    /\ (tci <> 0 -> addVLANHeader opts = true -> 12 <= TpPacket.Tp_snaplen m p ->
        fresh_for hp (TpPacket.Tp_snaplen m p + 4) data ->
        exists out hp',
          V3header.getData opts w hp = Ok (out, hp')
          /\ tagged_copy hp data tci out hp'
          /\ le_decode (rev (skipn 2 (vlan_tag tci))) = tci mod 65536)
    /\ (tci <> 0 -> addVLANHeader opts = true -> TpPacket.Tp_snaplen m p < 12 ->
        V3header.getData opts w hp
        = Panic (boundsSliceAcap 12 (TpPacket.Tp_snaplen m p))).
Proof.
  intros opts w hp Hm m p tci data.
  pose proof (load16_range m (p + 24)) as RM.
  pose proof (load32_range m (p + 12)) as RS.
  pose proof (load32_range m (p + 32)) as RT.
  fold (TpPacket.Tp_mac m p) in RM. fold (TpPacket.Tp_snaplen m p) in RS.
  fold (TpPacket.Tp_hv1_TpVlanTci m p) in RT. fold tci in RT.
  assert (E : V3header.getData opts w hp = insertVlanHeader data tci opts hp).
  { unfold V3header.getData. cbv zeta. fold m p.
    rewrite to_uintptr_field by (try exact Hm; lia).
    rewrite !to_int_small by lia. reflexivity. }
  rewrite E.
  destruct (getData_body (p + TpPacket.Tp_mac m p) (TpPacket.Tp_snaplen m p)
              tci opts hp RS) as (Hpass & Htag & Hshort).
  split; [exact Hpass|]. split; [|exact Hshort].
  intros Ht Ho H12 Hf. destruct (Htag Ht Ho H12 Hf) as (out & hp' & Eo & Hc).
  exists out, hp'. split; [exact Eo|]. split; [exact Hc|].
  rewrite vlan_tag_rev_le_bytes. cbn [app skipn]. rewrite rev_involutive.
  apply le_decode_2.
Qed.

Lemma V3header_getData_cases_witness :
  let m := mem_of_bytes Sample.base Sample.v3_block3 in
  let hp := mkHeap m (Sample.base + 4096) in
  let w := V3header.initV3Wrapper m Sample.base in
  (exists out hp',
      V3header.getData (mkOptions true) w hp = Ok (out, hp')
      /\ tagged_copy hp (mkSlice (Sample.base + 96) 14 14) 0xABC out hp')
  /\ V3header.getData (mkOptions false) w hp
     = Ok (mkSlice (Sample.base + 96) 14 14, hp).
Proof.
  intros m hp w.
  assert (Hm : mapped (V3header.Packet w))
    by (unfold mapped; vm_compute; split; discriminate).
  split.
  - destruct (V3header_getData_cases (mkOptions true) w hp Hm) as (_ & Htag & _).
    destruct Htag as (out & hp' & E & Hc & _).
    + vm_compute. discriminate.
    + reflexivity.
    + vm_compute. discriminate.
    + left. vm_compute. discriminate.
    + exists out, hp'. split; [exact E | exact Hc].
  - destruct (V3header_getData_cases (mkOptions false) w hp Hm) as (Hpass & _).
    apply Hpass. right. reflexivity.
Defined.

(** X5: [getData] of the cgo-typed v3 wrapper takes its TCI from the upper
    half of the wrapper's own packet pointer, not from the packet.  With
    insertion on, every packet whose address is 2^32 or above and that has at
    least 12 captured bytes is copied with the tag 0x81 0x00 followed by bits
    32..47 of that address, whatever the packet's VLAN fields hold (a shorter
    packet makes it panic); below 2^32, or with insertion off, the packet's
    bytes are returned in place. *)
Theorem TpV3Hdr_getData_cases :
  forall opts w hp,
    mapped (TpV3Hdr.packet w) ->
    let m := bytes hp in
    let p := TpV3Hdr.packet w in
    let tci := p / 2 ^ 32 in
    let data := mkSlice (p + TpV3Packet.Mac m p)
                        (TpV3Packet.Snaplen m p) (TpV3Packet.Snaplen m p) in
    (p < 2 ^ 32 \/ addVLANHeader opts = false ->
     TpV3Hdr.getData opts w hp = Ok (data, hp))
    /\ (2 ^ 32 <= p -> addVLANHeader opts = true ->
        12 <= TpV3Packet.Snaplen m p ->
        fresh_for hp (TpV3Packet.Snaplen m p + 4) data ->
        exists out hp',
          TpV3Hdr.getData opts w hp = Ok (out, hp')
          /\ tagged_copy hp data tci out hp'
          /\ le_decode (rev (skipn 2 (vlan_tag tci))) = (p / 2 ^ 32) mod 65536)
    /\ (2 ^ 32 <= p -> addVLANHeader opts = true ->
        TpV3Packet.Snaplen m p < 12 ->
        TpV3Hdr.getData opts w hp
        = Panic (boundsSliceAcap 12 (TpV3Packet.Snaplen m p))).
Proof.
  intros opts w hp Hm m p tci data.
  assert (Hp : 0 <= p < 2 ^ 64) by (destruct Hm; unfold p; lia).
  pose proof (load16_range m (p + 24)) as RM.
  pose proof (load32_range m (p + 12)) as RS.
  fold (TpV3Packet.Mac m p) in RM. fold (TpV3Packet.Snaplen m p) in RS.
  assert (RT : 0 <= tci < 2 ^ 32).
  { unfold tci. split; [apply Z.div_pos; lia | apply Z.div_lt_upper_bound; lia]. }
  assert (E : TpV3Hdr.getData opts w hp = insertVlanHeader data tci opts hp).
  { unfold TpV3Hdr.getData. cbv zeta. fold m p.
    rewrite TpV3Hdr_overlay_tci by exact Hp. fold p tci.
    rewrite to_uintptr_field by (try exact Hm; lia).
    rewrite !to_int_small by lia. reflexivity. }
  rewrite E.
  destruct (getData_body (p + TpV3Packet.Mac m p) (TpV3Packet.Snaplen m p)
              tci opts hp RS) as (Hpass & Htag & Hshort).
  assert (Z0 : p < 2 ^ 32 -> tci = 0)
    by (intros; unfold tci; apply Z.div_small; lia).
  assert (N0 : 2 ^ 32 <= p -> tci <> 0).
  { intros Hge Hz. unfold tci in Hz.
    pose proof (Z.div_mod p (2 ^ 32) ltac:(lia)).
    pose proof (Z.mod_pos_bound p (2 ^ 32) ltac:(lia)). lia. }
  split; [|split].
  - intros [Hlow|Hoff]; apply Hpass; [left; apply Z0; exact Hlow | right; exact Hoff].
  - intros Hge Ho H12 Hf.
    destruct (Htag (N0 Hge) Ho H12 Hf) as (out & hp' & Eo & Hc).
    exists out, hp'. split; [exact Eo|]. split; [exact Hc|].
    rewrite vlan_tag_rev_le_bytes. cbn [app skipn]. rewrite rev_involutive.
    apply le_decode_2.
  - intros Hge Ho Hs. apply Hshort; [apply N0; exact Hge | exact Ho | exact Hs].
Qed.

Lemma TpV3Hdr_getData_cases_witness :
  let m := mem_of_bytes Sample.base Sample.v3_block3 in
  let hp := mkHeap m (Sample.base + 4096) in
  let w1 := fst (TpV3Hdr.next m (TpV3Hdr.initV3Wrapper m Sample.base)) in
  HeaderVariant1.Vlan_tci m (TpV3Packet.Hv1 (TpV3Hdr.packet w1)) = 0
  /\ exists out hp',
      TpV3Hdr.getData (mkOptions true) w1 hp = Ok (out, hp')
      /\ tagged_copy hp (mkSlice (Sample.base + 160) 14 14) 0x7f00 out hp'.
Proof.
  intros m hp w1. split; [reflexivity|].
  assert (Hm : mapped (TpV3Hdr.packet w1))
    by (unfold mapped; vm_compute; split; discriminate).
  destruct (TpV3Hdr_getData_cases (mkOptions true) w1 hp Hm) as (_ & Htag & _).
  destruct Htag as (out & hp' & E & Hc & _).
  - vm_compute. discriminate.
  - reflexivity.
  - vm_compute. discriminate.
  - left. vm_compute. discriminate.
  - exists out, hp'. split; [exact E | exact Hc].
Defined.

Lemma TpV3Hdr_getVLAN_reads_pointer_witness :
  let m := mem_of_bytes Sample.base Sample.v3_block3 in
  let w := TpV3Hdr.initV3Wrapper m Sample.base in
  HeaderVariant1.Vlan_tci m (TpV3Packet.Hv1 (TpV3Hdr.packet w)) = 0xABC
  /\ TpV3Hdr.getVLAN m w = Z.land (Z.shiftr (TpV3Hdr.packet w) 32) 0xfff.
Proof.
  intros m w. split; [reflexivity|].
  apply TpV3Hdr_getVLAN_reads_pointer.
  - vm_compute. split; [discriminate | reflexivity].
  - vm_compute. discriminate.
Defined.

(** ** [getIfaceIndex] *)

Lemma to_signed32_range x : - 2 ^ 31 <= to_signed 32 x < 2 ^ 31.
Proof.
  unfold to_signed.
  pose proof (Z.mod_pos_bound (x + 2 ^ (32 - 1)) (2 ^ 32) ltac:(lia)).
  change (2 ^ (32 - 1)) with (2 ^ 31) in *. lia.
Qed.

Lemma to_signed32_mod i :
  - 2 ^ 31 <= i < 2 ^ 31 -> to_signed 32 (i mod 2 ^ 32) = i.
Proof.
  intros H. unfold to_signed. change (2 ^ (32 - 1)) with (2 ^ 31).
  rewrite Z.add_mod_idemp_l by lia. rewrite Z.mod_small; lia.
Qed.

Lemma to_signed32_low16 x : to_signed 32 x mod 2 ^ 16 = x mod 2 ^ 16.
Proof.
  unfold to_signed. change (2 ^ (32 - 1)) with (2 ^ 31).
  pose proof (Z.div_mod (x + 2 ^ 31) (2 ^ 32) ltac:(lia)) as D.
  replace ((x + 2 ^ 31) mod 2 ^ 32 - 2 ^ 31)
    with (x + (- ((x + 2 ^ 31) / 2 ^ 32) * 2 ^ 16) * 2 ^ 16) by lia.
  apply Z.mod_add. lia.
Qed.

Lemma to_int_Ifindex m p : to_int (SockAddrLL.Ifindex m p) = SockAddrLL.Ifindex m p.
Proof.
  unfold SockAddrLL.Ifindex, to_int. apply to_signed_id; [|lia].
  pose proof (to_signed32_range (load32 m (p + 4))). lia.
Qed.

Lemma trailer_address p size :
  mapped p -> 0 <= size <= 4096 ->
  to_uintptr (to_uintptr p + to_uintptr (tpAlign (to_int size)))
  = p + 16 * ((size + 15) / 16).
Proof.
  intros Hm Hs. rewrite to_int_small by lia.
  rewrite tpAlign_spec by (unfold maxInt; lia).
  apply to_uintptr_field; [exact Hm|].
  pose proof (Z.div_mod (size + 15) 16 ltac:(lia)).
  pose proof (Z.mod_pos_bound (size + 15) 16 ltac:(lia)). lia.
Qed.

Lemma load32_halves m a : load32 m a = load16 m a + 65536 * load16 m (a + 2).
Proof.
  unfold load32, load16. cbn [load_le].
  replace (a + 1 + 1) with (a + 2) by lia.
  replace (a + 2 + 1 + 1) with (a + 2 + 1 + 1) by lia. lia.
Qed.

Ltac iface_at :=
  match goal with
  | Hm : mapped _ |- to_int (SockAddrLL.Ifindex ?m _) = _ =>
      rewrite to_int_Ifindex; f_equal;
      rewrite (trailer_address _ _ Hm) by lia; reflexivity
  end.

Lemma getIfaceIndex_at :
  (forall m h, mapped (V1header.addr h) ->
      V1header.getIfaceIndex m h = SockAddrLL.Ifindex m (V1header.addr h + 32))
  /\ (forall m h, mapped (V2header.addr h) ->
      V2header.getIfaceIndex m h = SockAddrLL.Ifindex m (V2header.addr h + 32))
  /\ (forall m h, mapped (TpV1Hdr.addr h) ->
      TpV1Hdr.getIfaceIndex m h = SockAddrLL.Ifindex m (TpV1Hdr.addr h + 32))
  /\ (forall m h, mapped (TpV2Hdr.addr h) ->
      TpV2Hdr.getIfaceIndex m h = SockAddrLL.Ifindex m (TpV2Hdr.addr h + 32))
  /\ (forall m w, mapped (TpV3Hdr.packet w) ->
      TpV3Hdr.getIfaceIndex m w
      = SockAddrLL.Ifindex m (TpV3Hdr.packet w + 48))
  /\ (forall m w, mapped (V3header.Packet w) ->
      V3header.getIfaceIndex m w
      = SockAddrLL.Ifindex m (V3header.Packet w + 32)
      /\ V3header.getIfaceIndex m w mod 2 ^ 16
         = TpPacket.Tp_hv1_TpVlanTpid m (V3header.Packet w)).
Proof.
  repeat apply conj; intros m h Hm.
  - unfold V1header.getIfaceIndex, V1header.sizeofV1Hdr. cbv zeta. iface_at.
  - unfold V2header.getIfaceIndex, V2header.sizeofV2Hdr. cbv zeta. iface_at.
  - unfold TpV1Hdr.getIfaceIndex, TpV1Hdr.tpV1HdrSize. cbv zeta. iface_at.
  - unfold TpV2Hdr.getIfaceIndex, TpV2Hdr.tpV2HdrSize. cbv zeta. iface_at.
  - unfold TpV3Hdr.getIfaceIndex, TpV3Hdr.tpV3HdrSize. cbv zeta. iface_at.
  - assert (E : V3header.getIfaceIndex m h
                = SockAddrLL.Ifindex m (V3header.Packet h + 32)).
    { unfold V3header.getIfaceIndex, V3header.sizeofV3Hdr. cbv zeta. iface_at. }
    split; [exact E|]. rewrite E. unfold SockAddrLL.Ifindex.
    rewrite to_signed32_low16.
    replace (V3header.Packet h + 32 + 4) with (V3header.Packet h + 36) by lia.
    rewrite load32_halves. unfold TpPacket.Tp_hv1_TpVlanTpid.
    pose proof (load16_range m (V3header.Packet h + 36)) as R.
    change (2 ^ 16) with 65536 in *.
    rewrite (Z.mul_comm 65536), Z.mod_add by lia. apply Z.mod_small. exact R.
Qed.


(** X6: where [getIfaceIndex] looks.  For v1 and v2 frames it decodes the
    signed 32-bit interface index of the link-layer address that starts 32
    bytes after the frame header's first byte; the cgo-typed v3 wrapper looks
    48 bytes after the current packet header's first byte.  The hand-written
    v3 wrapper aligns the size of the wrapper struct (32) instead of the
    packet header's (48): it looks 32 bytes after the packet header's first
    byte, inside that header, so the low 16 bits of what it returns are the
    packet's VLAN TPID field. *)
Theorem getIfaceIndex_location :
  (forall m h, mapped (V1header.addr h) ->
      V1header.getIfaceIndex m h = SockAddrLL.Ifindex m (V1header.addr h + 32))
  /\ (forall m h, mapped (V2header.addr h) ->
      V2header.getIfaceIndex m h = SockAddrLL.Ifindex m (V2header.addr h + 32))
  /\ (forall m h, mapped (TpV1Hdr.addr h) ->
      TpV1Hdr.getIfaceIndex m h = SockAddrLL.Ifindex m (TpV1Hdr.addr h + 32))
  /\ (forall m h, mapped (TpV2Hdr.addr h) ->
      TpV2Hdr.getIfaceIndex m h = SockAddrLL.Ifindex m (TpV2Hdr.addr h + 32))
  /\ (forall m w, mapped (TpV3Hdr.packet w) ->
      TpV3Hdr.getIfaceIndex m w
      = SockAddrLL.Ifindex m (TpV3Hdr.packet w + 48))
  /\ (forall m w, mapped (V3header.Packet w) ->
      V3header.getIfaceIndex m w
      = SockAddrLL.Ifindex m (V3header.Packet w + 32)
      /\ V3header.getIfaceIndex m w mod 2 ^ 16
         = TpPacket.Tp_hv1_TpVlanTpid m (V3header.Packet w)).
Proof. exact getIfaceIndex_at. Qed.

Lemma getIfaceIndex_location_witness :
  let m := mem_of_bytes Sample.base Sample.v3_block3 in
  let w := V3header.initV3Wrapper m Sample.base in
  V3header.getIfaceIndex m w mod 2 ^ 16 = 0x8100
  /\ TpPacket.Tp_hv1_TpVlanTpid m (V3header.Packet w) = 0x8100.
Proof.
  intros m w.
  assert (Hm : mapped (V3header.Packet w))
    by (unfold mapped; vm_compute; split; discriminate).
  destruct getIfaceIndex_location as (_ & _ & _ & _ & _ & H3).
  destruct (H3 m w Hm) as [_ Hlow].
  split; [|reflexivity]. rewrite Hlow. reflexivity.
Defined.

(** X7: the interface index round-trips, sign included: once a signed 32-bit
    index [i] has been stored (little-endian) in the [Ifindex] field of the
    trailing link-layer address (byte 36 after a v1 or v2 frame header's
    first byte, byte 52 after a cgo-typed v3 packet header's),
    [getIfaceIndex] returns [i]. *)
Theorem getIfaceIndex_round_trip :
  forall m i, - 2 ^ 31 <= i < 2 ^ 31 ->
    (forall h, mapped (V1header.addr h) ->
        V1header.getIfaceIndex (store32 m (V1header.addr h + 36) i) h = i)
    /\ (forall h, mapped (V2header.addr h) ->
        V2header.getIfaceIndex (store32 m (V2header.addr h + 36) i) h = i)
    /\ (forall h, mapped (TpV1Hdr.addr h) ->
        TpV1Hdr.getIfaceIndex (store32 m (TpV1Hdr.addr h + 36) i) h = i)
    /\ (forall h, mapped (TpV2Hdr.addr h) ->
        TpV2Hdr.getIfaceIndex (store32 m (TpV2Hdr.addr h + 36) i) h = i)
    /\ (forall w, mapped (TpV3Hdr.packet w) ->
        TpV3Hdr.getIfaceIndex (store32 m (TpV3Hdr.packet w + 52) i) w = i).
Proof.
  intros m i Hi.
  assert (RT : forall p, SockAddrLL.Ifindex (store32 m (p + 4) i) p = i).
  { intros p. unfold SockAddrLL.Ifindex, load32, store32.
    rewrite load_store_le. apply (to_signed32_mod i Hi). }
  destruct getIfaceIndex_at as (H1 & H2 & H3 & H4 & H5 & _).
  repeat apply conj; intros h Hm.
  - rewrite H1 by exact Hm.
    replace (V1header.addr h + 36) with (V1header.addr h + 32 + 4) by lia. apply RT.
  - rewrite H2 by exact Hm.
    replace (V2header.addr h + 36) with (V2header.addr h + 32 + 4) by lia. apply RT.
  - rewrite H3 by exact Hm.
    replace (TpV1Hdr.addr h + 36) with (TpV1Hdr.addr h + 32 + 4) by lia. apply RT.
  - rewrite H4 by exact Hm.
    replace (TpV2Hdr.addr h + 36) with (TpV2Hdr.addr h + 32 + 4) by lia. apply RT.
  - rewrite H5 by exact Hm.
    replace (TpV3Hdr.packet h + 52) with (TpV3Hdr.packet h + 48 + 4) by lia.
    apply RT.
Qed.

Lemma getIfaceIndex_round_trip_witness :
  let m := mem_of_bytes Sample.base Sample.v2_frame in
  let h := V2header.at_ Sample.base in
  V2header.getIfaceIndex (store32 m (Sample.base + 36) (-2)) h = -2
  /\ V2header.getIfaceIndex m h = 0.
Proof.
  intros m h. split; [|reflexivity].
  assert (Hi : - 2 ^ 31 <= -2 < 2 ^ 31) by lia.
  destruct (getIfaceIndex_round_trip m (-2) Hi) as (_ & H2 & _).
  apply (H2 h). unfold mapped. vm_compute. split; discriminate.
Defined.

(** ** [getStatus] and [getLength] *)

(** X8: [getLength] returns the unsigned 32-bit length field as it is, and so
    does [getStatus] for the 32-bit status words of v2 frames and v3 blocks:
    both lie in [0, 2^32).  The v1 status word is 64 bits wide and is
    converted to [int]: [getStatus] returns it as it is below 2^63 and
    2^64 less, a negative number, from 2^63 on. *)
Theorem getStatus_getLength_values :
  (forall m h, V1header.getStatus m h
               = (if V1header.Status m h <? 2 ^ 63 then V1header.Status m h
                  else V1header.Status m h - 2 ^ 64)
               /\ V1header.getLength m h = V1header.Len m h
               /\ 0 <= V1header.getLength m h < 2 ^ 32)
  /\ (forall m h, TpV1Hdr.getStatus m h
               = (if TpV1Hdr.Status m h <? 2 ^ 63 then TpV1Hdr.Status m h
                  else TpV1Hdr.Status m h - 2 ^ 64)
               /\ TpV1Hdr.getLength m h = TpV1Hdr.Len m h
               /\ 0 <= TpV1Hdr.getLength m h < 2 ^ 32)
  /\ (forall m h, V2header.getStatus m h = V2header.Status m h
               /\ 0 <= V2header.getStatus m h < 2 ^ 32
               /\ V2header.getLength m h = V2header.Len m h
               /\ 0 <= V2header.getLength m h < 2 ^ 32)
  /\ (forall m h, TpV2Hdr.getStatus m h = TpV2Hdr.Status m h
               /\ 0 <= TpV2Hdr.getStatus m h < 2 ^ 32
               /\ TpV2Hdr.getLength m h = TpV2Hdr.Len m h
               /\ 0 <= TpV2Hdr.getLength m h < 2 ^ 32)
  /\ (forall m w, V3header.getStatus m w
                  = TpacketHdrV1.BlockStatus m (V3header.Blockhdr w)
               /\ 0 <= V3header.getStatus m w < 2 ^ 32
               /\ V3header.getLength m w = TpPacket.Tp_len m (V3header.Packet w)
               /\ 0 <= V3header.getLength m w < 2 ^ 32)
  /\ (forall m w, TpV3Hdr.getStatus m w
                  = TpV3BlockHdr.Block_status m (TpV3Hdr.blockhdr w)
               /\ 0 <= TpV3Hdr.getStatus m w < 2 ^ 32
               /\ TpV3Hdr.getLength m w = TpV3Packet.Len m (TpV3Hdr.packet w)
               /\ 0 <= TpV3Hdr.getLength m w < 2 ^ 32).
Proof.
  assert (S64 : forall x, 0 <= x < 2 ^ 64 ->
                to_int x = if x <? 2 ^ 63 then x else x - 2 ^ 64).
  { intros x Hx. unfold to_int, to_signed. change (2 ^ (64 - 1)) with (2 ^ 63).
    destruct (Z.ltb_spec x (2 ^ 63)).
    - rewrite Z.mod_small; lia.
    - replace (x + 2 ^ 63) with (x - 2 ^ 63 + 1 * 2 ^ 64) by lia.
      rewrite Z.mod_add by lia. rewrite Z.mod_small; lia. }
  repeat apply conj; intros m h;
    unfold V1header.getStatus, V1header.getLength, V1header.Status, V1header.Len,
           TpV1Hdr.getStatus, TpV1Hdr.getLength, TpV1Hdr.Status, TpV1Hdr.Len,
           V2header.getStatus, V2header.getLength, V2header.Status, V2header.Len,
           TpV2Hdr.getStatus, TpV2Hdr.getLength, TpV2Hdr.Status, TpV2Hdr.Len,
           V3header.getStatus, V3header.getLength, TpacketHdrV1.BlockStatus,
           TpPacket.Tp_len, TpV3Hdr.getStatus, TpV3Hdr.getLength,
           TpV3BlockHdr.Block_status, TpV3Packet.Len;
    rewrite ?to_int_load32;
    repeat split;
    try apply load32_range;
    try (apply S64; apply load64_range).
Qed.

(** ** [getTime] on out-of-range sub-second fields *)

Lemma time_Unix_normal sec nsec :
  0 <= sec < 2 ^ 32 -> 0 <= nsec < 2 ^ 43 ->
  time_Unix sec nsec
  = mkTime (sec + nsec / 1000000000) (nsec mod 1000000000).
Proof.
  intros Hs Hn. unfold time_Unix.
  destruct (Z.ltb_spec nsec 0) as [?|_]; [lia|]. cbn [orb].
  pose proof (Z.div_mod nsec 1000000000 ltac:(lia)) as D.
  pose proof (Z.mod_pos_bound nsec 1000000000 ltac:(lia)) as B.
  destruct (Z.leb_spec 1000000000 nsec) as [Hbig|Hsmall].
  - rewrite Z.quot_div_nonneg by lia.
    assert (Q : 0 <= nsec / 1000000000 < 2 ^ 14).
    { split; [apply Z.div_pos; lia|]. apply Z.div_lt_upper_bound; lia. }
    rewrite (to_int64_small (sec + _)) by lia.
    rewrite (to_int64_small (_ * 1000000000)) by lia.
    rewrite (to_int64_small (nsec - _)) by lia.
    destruct (Z.ltb_spec (nsec - nsec / 1000000000 * 1000000000) 0) as [?|_]; [lia|].
    f_equal. lia.
  - rewrite Z.div_small, Z.mod_small by lia. f_equal. lia.
Qed.

(** X9: [getTime] carries an out-of-range sub-second field into the seconds.
    For v1 the time is [Sec + Usec / 10^6] seconds and
    [(Usec mod 10^6) * 1000] nanoseconds; for v2 and v3 it is
    [Sec + Nsec / 10^9] seconds and [Nsec mod 10^9] nanoseconds.  The
    nanosecond part is always within [0, 10^9). *)
Theorem getTime_normalised :
  (forall m h, V1header.getTime m h
               = mkTime (V1header.Sec m h + V1header.Usec m h / 1000000)
                        (V1header.Usec m h mod 1000000 * 1000))
  /\ (forall m h, TpV1Hdr.getTime m h
               = mkTime (TpV1Hdr.Sec m h + TpV1Hdr.Usec m h / 1000000)
                        (TpV1Hdr.Usec m h mod 1000000 * 1000))
  /\ (forall m h, V2header.getTime m h
               = mkTime (V2header.Sec m h + V2header.Nsec m h / 1000000000)
                        (V2header.Nsec m h mod 1000000000))
  /\ (forall m h, TpV2Hdr.getTime m h
               = mkTime (TpV2Hdr.Sec m h + TpV2Hdr.Nsec m h / 1000000000)
                        (TpV2Hdr.Nsec m h mod 1000000000))
  /\ (forall m w, V3header.getTime m w
               = mkTime (TpPacket.Tp_sec m (V3header.Packet w)
                         + TpPacket.Tp_nsec m (V3header.Packet w) / 1000000000)
                        (TpPacket.Tp_nsec m (V3header.Packet w) mod 1000000000))
  /\ (forall m w, TpV3Hdr.getTime m w
               = mkTime (TpV3Packet.Sec m (TpV3Hdr.packet w)
                         + TpV3Packet.Nsec m (TpV3Hdr.packet w) / 1000000000)
                        (TpV3Packet.Nsec m (TpV3Hdr.packet w) mod 1000000000)).
Proof.
  assert (U : forall sec usec, 0 <= sec < 2 ^ 32 -> 0 <= usec < 2 ^ 32 ->
              time_Unix (to_int64 sec) (to_int64 (to_int64 usec * 1000))
              = mkTime (sec + usec / 1000000) (usec mod 1000000 * 1000)).
  { intros sec usec Hs Hu.
    rewrite (to_int64_small sec), (to_int64_small usec) by lia.
    rewrite (to_int64_small (usec * 1000)) by lia.
    rewrite time_Unix_normal by lia.
    change 1000000000 with (1000000 * 1000).
    rewrite Z.div_mul_cancel_r by lia.
    rewrite Z.mul_mod_distr_r by lia. reflexivity. }
  assert (N : forall sec nsec, 0 <= sec < 2 ^ 32 -> 0 <= nsec < 2 ^ 32 ->
              time_Unix (to_int64 sec) (to_int64 nsec)
              = mkTime (sec + nsec / 1000000000) (nsec mod 1000000000)).
  { intros sec nsec Hs Hn.
    rewrite (to_int64_small sec), (to_int64_small nsec) by lia.
    apply time_Unix_normal; lia. }
  repeat apply conj; intros m h;
    first [ apply U | apply N ]; apply load32_range.
Qed.

(** ** Releasing twice, releasing in any order *)

Lemma store_le_zero n : forall m a x,
  store_le n m a 0 x
  = if (a <=? x) && (x <? a + Z.of_nat n) then x00 else m x.
Proof.
  induction n as [|n IH]; intros m a x.
  - cbn [store_le]. destruct (Z.leb_spec a x), (Z.ltb_spec x (a + Z.of_nat 0));
      cbn [andb]; try reflexivity; lia.
  - cbn [store_le]. change (0 / 256) with 0. rewrite IH. unfold store8.
    change (byte_of_Z 0) with x00.
    destruct (Z.leb_spec (a + 1) x), (Z.ltb_spec x (a + 1 + Z.of_nat n)),
             (Z.leb_spec a x), (Z.ltb_spec x (a + Z.of_nat (S n))),
             (Z.eqb_spec x a); cbn [andb]; try reflexivity; lia.
Qed.

Lemma store_le_zero_twice n k m a b x :
  store_le n (store_le k m b 0) a 0 x = store_le k (store_le n m a 0) b 0 x.
Proof.
  rewrite !store_le_zero.
  destruct ((a <=? x) && (x <? a + Z.of_nat n)),
           ((b <=? x) && (x <? b + Z.of_nat k)); reflexivity.
Qed.

Lemma store_le_zero_idem n m a x :
  store_le n (store_le n m a 0) a 0 x = store_le n m a 0 x.
Proof.
  rewrite !store_le_zero.
  destruct ((a <=? x) && (x <? a + Z.of_nat n)); reflexivity.
Qed.

(** X10: [clearStatus] is idempotent, and releases commute: clearing two
    headers (frames or blocks, of any versions, overlapping or not) in either
    order leaves the same memory.  Clearing a v3 block's status changes
    neither what the wrapper's [next] returns nor its cursor. *)
Theorem clearStatus_idempotent_commutes :
  (forall m h x, V1header.clearStatus (V1header.clearStatus m h) h x
                 = V1header.clearStatus m h x)
  /\ (forall m h x, V2header.clearStatus (V2header.clearStatus m h) h x
                    = V2header.clearStatus m h x)
  /\ (forall m w x, V3header.clearStatus (V3header.clearStatus m w) w x
                    = V3header.clearStatus m w x)
  /\ (forall m h1 h2 x, V1header.clearStatus (V1header.clearStatus m h1) h2 x
                        = V1header.clearStatus (V1header.clearStatus m h2) h1 x)
  /\ (forall m h1 h2 x, V2header.clearStatus (V2header.clearStatus m h1) h2 x
                        = V2header.clearStatus (V2header.clearStatus m h2) h1 x)
  /\ (forall m w1 w2 x, V3header.clearStatus (V3header.clearStatus m w1) w2 x
                        = V3header.clearStatus (V3header.clearStatus m w2) w1 x)
  /\ (forall m h w x, V3header.clearStatus (V1header.clearStatus m h) w x
                      = V1header.clearStatus (V3header.clearStatus m w) h x)
  /\ (forall m w,
        snd (V3header.next (V3header.clearStatus m w) w) = snd (V3header.next m w)
        /\ V3header.used (fst (V3header.next (V3header.clearStatus m w) w))
           = V3header.used (fst (V3header.next m w)))
  /\ (forall m w,
        snd (TpV3Hdr.next (TpV3Hdr.clearStatus m w) w) = snd (TpV3Hdr.next m w)
        /\ TpV3Hdr.used (fst (TpV3Hdr.next (TpV3Hdr.clearStatus m w) w))
           = TpV3Hdr.used (fst (TpV3Hdr.next m w))).
Proof.
  repeat apply conj; intros;
    try (unfold V1header.clearStatus, V2header.clearStatus,
                V3header.clearStatus, store32, store64;
         first [ apply store_le_zero_idem | apply store_le_zero_twice ]).
  - rewrite !V3header_next_result, !V3header_next_used. split; [|reflexivity].
    do 2 f_equal. unfold V3header.clearStatus, TpacketHdrV1.NumPkts, load32, store32.
    apply load_le_store_le_disjoint. cbn. lia.
  - rewrite !TpV3Hdr_next_result, !TpV3Hdr_next_used. split; [|reflexivity].
    do 2 f_equal. unfold TpV3Hdr.clearStatus, TpV3BlockHdr.Num_pkts, load32, store32.
    apply load_le_store_le_disjoint. cbn. lia.
Qed.

Lemma V3header_calls_fresh m block k :
  Z.of_nat k < 2 ^ 32 ->
  fst (calls m k (V3header.initV3Wrapper m block))
  = map (fun i => Z.of_nat i + 1 <? TpacketHdrV1.NumPkts m (TpBlock.Hdr block))
        (seq 0 k)
  /\ V3header.used (snd (calls m k (V3header.initV3Wrapper m block)))
     = Z.of_nat k.
Proof.
  intros Hk.
  destruct (V3header_calls m k (V3header.initV3Wrapper m block))
    as (Hres & Hused & _).
  { cbn. lia. }
  { cbn [V3header.initV3Wrapper V3header.used]. lia. }
  cbn [V3header.initV3Wrapper V3header.used V3header.Blockhdr] in Hres, Hused.
  split; [|rewrite Hused; lia].
  rewrite Hres. apply map_ext. intros i.
  destruct (Z.leb_spec (TpacketHdrV1.NumPkts m (TpBlock.Hdr block))
                       (0 + 1 + Z.of_nat i)),
           (Z.ltb_spec (Z.of_nat i + 1)
                       (TpacketHdrV1.NumPkts m (TpBlock.Hdr block)));
    cbn [negb]; try reflexivity; lia.
Qed.

Lemma V3header_next_false_stays m w :
  snd (V3header.next m w) = false ->
  V3header.Packet (fst (V3header.next m w)) = V3header.Packet w.
Proof.
  unfold V3header.next. cbn [V3header.used V3header.Blockhdr V3header.Packet].
  destruct (_ <=? _); [reflexivity|]. cbn [snd]. discriminate.
Qed.

Lemma V3header_calls_walk m : forall k w,
  0 <= V3header.used w ->
  V3header.used w + Z.of_nat k < TpacketHdrV1.NumPkts m (V3header.Blockhdr w) ->
  V3header.Packet (snd (calls m k w)) = V3header_walk m (V3header.Packet w) k.
Proof.
  induction k as [|k IH]; intros w H0 Hk.
  - reflexivity.
  - pose proof (load32_range m (V3header.Blockhdr w + 4)) as R.
    fold (TpacketHdrV1.NumPkts m (V3header.Blockhdr w)) in R.
    assert (U : to_uint32 (V3header.used w + 1) = V3header.used w + 1)
      by (apply to_unsigned_id; lia).
    rewrite calls_S. cbn [next V3header_header fst snd V3header_walk].
    destruct (V3header_next_block m w) as [_ B].
    rewrite IH.
    + f_equal. apply V3header_next_packet. lia.
    + rewrite V3header_next_used. lia.
    + rewrite V3header_next_used, B. lia.
Qed.

Lemma V3header_next_aligned_stride m w :
  to_uint32 (V3header.used w + 1) < TpacketHdrV1.NumPkts m (V3header.Blockhdr w) ->
  mapped (V3header.Packet w) ->
  TpPacket.TpNextOffset m (V3header.Packet w) = 0 ->
  let p := V3header.Packet w in
  let p' := V3header.Packet (fst (V3header.next m w)) in
  p + TpPacket.Tp_mac m p + TpPacket.Tp_snaplen m p <= p'
  /\ p' < p + TpPacket.Tp_mac m p + TpPacket.Tp_snaplen m p + 16
  /\ (p' - p) mod 16 = 0.
Proof.
  intros Hlt [Hp0 Hp1] Hz p p'.
  pose proof (V3header_next_packet m w Hlt) as Hp. fold p p' in Hp.
  fold p in Hz, Hp0, Hp1. rewrite Hz in Hp. cbn [Z.eqb] in Hp.
  pose proof (load32_range m (p + 12)) as RS.
  pose proof (load16_range m (p + 24)) as RM.
  fold (TpPacket.Tp_snaplen m p) in RS. fold (TpPacket.Tp_mac m p) in RM.
  rewrite tpAlign_spec in Hp by (unfold maxInt; lia).
  pose proof (Z.div_mod (TpPacket.Tp_snaplen m p + TpPacket.Tp_mac m p + 15) 16
                ltac:(lia)) as D.
  pose proof (Z.mod_pos_bound
                (TpPacket.Tp_snaplen m p + TpPacket.Tp_mac m p + 15) 16
                ltac:(lia)) as B.
  unfold to_uintptr in Hp. rewrite to_unsigned_id in Hp by lia.
  rewrite Hp. repeat split; try lia.
  replace (p + 16 * ((TpPacket.Tp_snaplen m p + TpPacket.Tp_mac m p + 15) / 16) - p)
    with (0 + (TpPacket.Tp_snaplen m p + TpPacket.Tp_mac m p + 15) / 16 * 16) by lia.
  rewrite Z.mod_add by lia. reflexivity.
Qed.

Lemma TpV3Hdr_calls_fresh m block k :
  Z.of_nat k < 2 ^ 32 ->
  fst (calls m k (TpV3Hdr.initV3Wrapper m block))
  = map (fun i => Z.of_nat i + 1 <? TpV3BlockHdr.Num_pkts m (TpV3Block.Hdr block))
        (seq 0 k)
  /\ TpV3Hdr.used (snd (calls m k (TpV3Hdr.initV3Wrapper m block)))
     = Z.of_nat k.
Proof.
  intros Hk.
  destruct (TpV3Hdr_calls m k (TpV3Hdr.initV3Wrapper m block))
    as (Hres & Hused & _).
  { cbn. lia. }
  { cbn [TpV3Hdr.initV3Wrapper TpV3Hdr.used]. lia. }
  cbn [TpV3Hdr.initV3Wrapper TpV3Hdr.used TpV3Hdr.blockhdr] in Hres, Hused.
  split; [|rewrite Hused; lia].
  rewrite Hres. apply map_ext. intros i.
  destruct (Z.leb_spec (TpV3BlockHdr.Num_pkts m (TpV3Block.Hdr block))
                       (0 + 1 + Z.of_nat i)),
           (Z.ltb_spec (Z.of_nat i + 1)
                       (TpV3BlockHdr.Num_pkts m (TpV3Block.Hdr block)));
    cbn [negb]; try reflexivity; lia.
Qed.

Lemma TpV3Hdr_next_false_stays m w :
  snd (TpV3Hdr.next m w) = false ->
  TpV3Hdr.packet (fst (TpV3Hdr.next m w)) = TpV3Hdr.packet w.
Proof.
  unfold TpV3Hdr.next. cbn [TpV3Hdr.used TpV3Hdr.blockhdr TpV3Hdr.packet].
  destruct (_ <=? _); [reflexivity|]. cbn [snd]. discriminate.
Qed.

Lemma TpV3Hdr_calls_walk m : forall k w,
  0 <= TpV3Hdr.used w ->
  TpV3Hdr.used w + Z.of_nat k < TpV3BlockHdr.Num_pkts m (TpV3Hdr.blockhdr w) ->
  TpV3Hdr.packet (snd (calls m k w)) = TpV3Hdr_walk m (TpV3Hdr.packet w) k.
Proof.
  induction k as [|k IH]; intros w H0 Hk.
  - reflexivity.
  - pose proof (load32_range m (TpV3Hdr.blockhdr w + 4)) as R.
    fold (TpV3BlockHdr.Num_pkts m (TpV3Hdr.blockhdr w)) in R.
    assert (U : to_uint32 (TpV3Hdr.used w + 1) = TpV3Hdr.used w + 1)
      by (apply to_unsigned_id; lia).
    rewrite calls_S. cbn [next TpV3Hdr_header fst snd TpV3Hdr_walk].
    destruct (TpV3Hdr_next_block m w) as [_ B].
    rewrite IH.
    + f_equal. apply TpV3Hdr_next_packet. lia.
    + rewrite TpV3Hdr_next_used. lia.
    + rewrite TpV3Hdr_next_used, B. lia.
Qed.

Lemma TpV3Hdr_next_aligned_stride m w :
  to_uint32 (TpV3Hdr.used w + 1) < TpV3BlockHdr.Num_pkts m (TpV3Hdr.blockhdr w) ->
  mapped (TpV3Hdr.packet w) ->
  TpV3Packet.Next_offset m (TpV3Hdr.packet w) = 0 ->
  let p := TpV3Hdr.packet w in
  let p' := TpV3Hdr.packet (fst (TpV3Hdr.next m w)) in
  p + TpV3Packet.Mac m p + TpV3Packet.Snaplen m p <= p'
  /\ p' < p + TpV3Packet.Mac m p + TpV3Packet.Snaplen m p + 16
  /\ (p' - p) mod 16 = 0.
Proof.
  intros Hlt [Hp0 Hp1] Hz p p'.
  pose proof (TpV3Hdr_next_packet m w Hlt) as Hp. fold p p' in Hp.
  fold p in Hz, Hp0, Hp1. rewrite Hz in Hp. cbn [Z.eqb] in Hp.
  pose proof (load32_range m (p + 12)) as RS.
  pose proof (load16_range m (p + 24)) as RM.
  fold (TpV3Packet.Snaplen m p) in RS. fold (TpV3Packet.Mac m p) in RM.
  rewrite tpAlign_spec in Hp by (unfold maxInt; lia).
  pose proof (Z.div_mod (TpV3Packet.Snaplen m p + TpV3Packet.Mac m p + 15) 16
                ltac:(lia)) as D.
  pose proof (Z.mod_pos_bound
                (TpV3Packet.Snaplen m p + TpV3Packet.Mac m p + 15) 16
                ltac:(lia)) as B.
  unfold to_uintptr in Hp. rewrite to_unsigned_id in Hp by lia.
  rewrite Hp. repeat split; try lia.
  replace (p + 16 * ((TpV3Packet.Snaplen m p + TpV3Packet.Mac m p + 15) / 16) - p)
    with (0 + (TpV3Packet.Snaplen m p + TpV3Packet.Mac m p + 15) / 16 * 16) by lia.
  rewrite Z.mod_add by lia. reflexivity.
Qed.

(** X11: every call of [next] on a v3 wrapper, in order.  From a fresh
    wrapper, call number i (counting from 1, for any number of calls below
    2^32) returns true exactly when i is below the block's packet count: a
    block that declares no packet answers false at once, and calls made after
    the block is exhausted keep answering false.  The cursor counts the
    calls, and a call that returns false leaves the packet pointer where it
    was. *)
Theorem next_v3_every_call :
  (forall m block k,
      Z.of_nat k < 2 ^ 32 ->
      fst (calls m k (V3header.initV3Wrapper m block))
      = map (fun i => Z.of_nat i + 1
                      <? TpacketHdrV1.NumPkts m (TpBlock.Hdr block)) (seq 0 k)
      /\ V3header.used (snd (calls m k (V3header.initV3Wrapper m block)))
         = Z.of_nat k)
  /\ (forall m w,
      snd (V3header.next m w) = false ->
      V3header.Packet (fst (V3header.next m w)) = V3header.Packet w)
  /\ (forall m block k,
      Z.of_nat k < 2 ^ 32 ->
      fst (calls m k (TpV3Hdr.initV3Wrapper m block))
      = map (fun i => Z.of_nat i + 1
                      <? TpV3BlockHdr.Num_pkts m (TpV3Block.Hdr block)) (seq 0 k)
      /\ TpV3Hdr.used (snd (calls m k (TpV3Hdr.initV3Wrapper m block)))
         = Z.of_nat k)
  /\ (forall m w,
      snd (TpV3Hdr.next m w) = false ->
      TpV3Hdr.packet (fst (TpV3Hdr.next m w)) = TpV3Hdr.packet w).
Proof.
  split; [exact V3header_calls_fresh|].
  split; [exact V3header_next_false_stays|].
  split; [exact TpV3Hdr_calls_fresh | exact TpV3Hdr_next_false_stays].
Qed.

Lemma next_v3_every_call_witness :
  let m0 := mem_of_bytes Sample.base Sample.v3_block0 in
  let m3 := mem_of_bytes Sample.base Sample.v3_block3 in
  fst (calls m0 2 (V3header.initV3Wrapper m0 Sample.base)) = [false; false]
  /\ fst (calls m3 5 (V3header.initV3Wrapper m3 Sample.base))
     = [true; true; false; false; false].
Proof.
  intros m0 m3.
  destruct next_v3_every_call as (Hcalls & _).
  split.
  - destruct (Hcalls m0 Sample.base 2%nat) as [H _]; [cbn; lia|].
    rewrite H. reflexivity.
  - destruct (Hcalls m3 Sample.base 5%nat) as [H _]; [cbn; lia|].
    rewrite H. reflexivity.
Defined.

(** X12: the packets a v3 wrapper visits.  From a fresh wrapper, after k
    calls of [next] with k below the block's packet count (so that all of
    them returned true), the packet pointer is the address reached from the
    first packet (the block's address plus its offset-to-first-packet field)
    by k strides, each the current packet's next-offset field when non-zero
    and tpAlign(snaplen + mac) otherwise. *)
Theorem next_v3_visits_walk :
  (forall m block k,
      Z.of_nat k < TpacketHdrV1.NumPkts m (TpBlock.Hdr block) ->
      V3header.Packet (snd (calls m k (V3header.initV3Wrapper m block)))
      = V3header_walk m
          (to_uintptr (block + TpacketHdrV1.OffsetToFirstPkt m (TpBlock.Hdr block)))
          k)
  /\ (forall m block k,
      Z.of_nat k < TpV3BlockHdr.Num_pkts m (TpV3Block.Hdr block) ->
      TpV3Hdr.packet (snd (calls m k (TpV3Hdr.initV3Wrapper m block)))
      = TpV3Hdr_walk m
          (to_uintptr (block
                       + TpV3BlockHdr.Offset_to_first_pkt m (TpV3Block.Hdr block)))
          k).
Proof.
  split; intros m block k Hk.
  - rewrite V3header_calls_walk.
    + cbn [V3header.initV3Wrapper V3header.Packet]. f_equal. apply to_uintptr_add.
    + cbn. lia.
    + cbn [V3header.initV3Wrapper V3header.used V3header.Blockhdr]. lia.
  - rewrite TpV3Hdr_calls_walk.
    + cbn [TpV3Hdr.initV3Wrapper TpV3Hdr.packet]. f_equal. apply to_uintptr_add.
    + cbn. lia.
    + cbn [TpV3Hdr.initV3Wrapper TpV3Hdr.used TpV3Hdr.blockhdr]. lia.
Qed.

Lemma next_v3_visits_walk_witness :
  let m := mem_of_bytes Sample.base Sample.v3_block3 in
  V3header.Packet (snd (calls m 2 (V3header.initV3Wrapper m Sample.base)))
  = Sample.base + 48 + 64 + 64
  /\ V3header_walk m (Sample.base + 48) 2 = Sample.base + 48 + 64 + 64.
Proof.
  intros m. split; [|reflexivity].
  rewrite (proj1 next_v3_visits_walk m Sample.base 2%nat).
  - reflexivity.
  - vm_compute. reflexivity.
Defined.

(** X13: the fallback stride never lands inside the current packet.  When
    [next] returns true and the current packet's next-offset field is zero,
    the new packet pointer is a multiple of 16 bytes past the old one, at or
    after the end of the current packet's captured bytes (old pointer + mac +
    snaplen) and fewer than 16 bytes past it. *)
Theorem next_v3_fallback_stride :
  (forall m w,
      to_uint32 (V3header.used w + 1)
      < TpacketHdrV1.NumPkts m (V3header.Blockhdr w) ->
      mapped (V3header.Packet w) ->
      TpPacket.TpNextOffset m (V3header.Packet w) = 0 ->
      let p := V3header.Packet w in
      let p' := V3header.Packet (fst (V3header.next m w)) in
      p + TpPacket.Tp_mac m p + TpPacket.Tp_snaplen m p <= p'
      /\ p' < p + TpPacket.Tp_mac m p + TpPacket.Tp_snaplen m p + 16
      /\ (p' - p) mod 16 = 0)
  /\ (forall m w,
      to_uint32 (TpV3Hdr.used w + 1)
      < TpV3BlockHdr.Num_pkts m (TpV3Hdr.blockhdr w) ->
      mapped (TpV3Hdr.packet w) ->
      TpV3Packet.Next_offset m (TpV3Hdr.packet w) = 0 ->
      let p := TpV3Hdr.packet w in
      let p' := TpV3Hdr.packet (fst (TpV3Hdr.next m w)) in
      p + TpV3Packet.Mac m p + TpV3Packet.Snaplen m p <= p'
      /\ p' < p + TpV3Packet.Mac m p + TpV3Packet.Snaplen m p + 16
      /\ (p' - p) mod 16 = 0).
Proof.
  split; [exact V3header_next_aligned_stride | exact TpV3Hdr_next_aligned_stride].
Qed.

Lemma next_v3_fallback_stride_witness :
  let m := mem_of_bytes Sample.base Sample.v3_block3 in
  let w1 := fst (V3header.next m (V3header.initV3Wrapper m Sample.base)) in
  let p := V3header.Packet w1 in
  let p' := V3header.Packet (fst (V3header.next m w1)) in
  p + TpPacket.Tp_mac m p + TpPacket.Tp_snaplen m p <= p'
  /\ p' < p + TpPacket.Tp_mac m p + TpPacket.Tp_snaplen m p + 16
  /\ (p' - p) mod 16 = 0.
Proof.
  intros m w1.
  apply (proj1 next_v3_fallback_stride m w1).
  - vm_compute. reflexivity.
  - unfold mapped. vm_compute. split; discriminate.
  - reflexivity.
Defined.

(** ** More on [insertVlanHeader] *)






(** ** Decoding what was encoded *)

Lemma length_le_bytes n : forall v, length (le_bytes n v) = n.
Proof.
  induction n as [|n IH]; intros v; cbn [le_bytes length]; [|rewrite IH];
    reflexivity.
Qed.

Lemma store_bytes_app xs : forall m a ys,
  store_bytes m a (xs ++ ys)
  = store_bytes (store_bytes m a xs) (a + Z.of_nat (length xs)) ys.
Proof.
  induction xs as [|x xs IH]; intros m a ys.
  - cbn [app store_bytes length Z.of_nat]. rewrite Z.add_0_r. reflexivity.
  - cbn [app store_bytes length]. rewrite IH. f_equal. lia.
Qed.

Lemma store_bytes_le_bytes n : forall m a v,
  store_bytes m a (le_bytes n v) = store_le n m a v.
Proof.
  induction n as [|n IH]; intros m a v.
  - reflexivity.
  - cbn [le_bytes store_bytes store_le]. rewrite IH. reflexivity.
Qed.

(** The field written after the bytes [pre] reads back. *)
Lemma load_le_field n m a pre v post :
  load_le n (store_bytes m a (pre ++ le_bytes n v ++ post))
          (a + Z.of_nat (length pre))
  = v mod 256 ^ Z.of_nat n.
Proof.
  rewrite !store_bytes_app.
  transitivity
    (load_le n (store_bytes (store_bytes m a pre) (a + Z.of_nat (length pre))
                            (le_bytes n v))
             (a + Z.of_nat (length pre))).
  - apply load_le_ext. intros x Hx. apply store_bytes_other.
    rewrite length_le_bytes. lia.
  - rewrite store_bytes_le_bytes. apply load_store_le.
Qed.

(** Reads the field of width [n] at offset [off] back from an encoded header,
    after reassociating the encoding [k] times. *)
Ltac decode_here :=
  match goal with
  | |- context [load_le ?n (store_bytes ?m ?a (?pre ++ le_bytes ?n ?v ++ ?post)) ?b] =>
      replace b with (a + Z.of_nat (length pre))
        by (rewrite ?length_app, ?length_le_bytes, ?repeat_length; cbn [length]; lia);
      rewrite (load_le_field n m a pre v post)
  end.

Tactic Notation "decode_field" integer(k) :=
  do k rewrite app_assoc; decode_here.

Lemma V2header_fields_decode a status len snaplen mac net sec nsec tci tpid :
  let m := mem_of_bytes a
             (V2header_encode status len snaplen mac net sec nsec tci tpid) in
  let h := V2header.at_ a in
  V2header.Status m h = status mod 2 ^ 32
  /\ V2header.Len m h = len mod 2 ^ 32
  /\ V2header.Snaplen m h = snaplen mod 2 ^ 32
  /\ V2header.Mac m h = mac mod 2 ^ 16
  /\ V2header.Net m h = net mod 2 ^ 16
  /\ V2header.Sec m h = sec mod 2 ^ 32
  /\ V2header.Nsec m h = nsec mod 2 ^ 32
  /\ V2header.VlanTci m h = tci mod 2 ^ 16
  /\ V2header.VlanTpid m h = tpid mod 2 ^ 16.
Proof.
  intros m h. subst m h.
  unfold V2header.Status, V2header.Len, V2header.Snaplen, V2header.Mac,
    V2header.Net, V2header.Sec, V2header.Nsec, V2header.VlanTci,
    V2header.VlanTpid, load32, load16, mem_of_bytes, V2header_encode.
  cbn [V2header.addr].
  repeat apply conj.
  - change (le_bytes 4 status ++ ?r) with ([] ++ le_bytes 4 status ++ r).
    decode_field 0. reflexivity.
  - decode_field 0. reflexivity.
  - decode_field 1. reflexivity.
  - decode_field 2. reflexivity.
  - decode_field 3. reflexivity.
  - decode_field 4. reflexivity.
  - decode_field 5. reflexivity.
  - decode_field 6. reflexivity.
  - decode_field 7. reflexivity.
Qed.

Lemma V1header_fields_decode a status len snaplen mac net sec usec :
  let m := mem_of_bytes a (V1header_encode status len snaplen mac net sec usec) in
  let h := V1header.at_ a in
  V1header.Status m h = status mod 2 ^ 64
  /\ V1header.Len m h = len mod 2 ^ 32
  /\ V1header.Snaplen m h = snaplen mod 2 ^ 32
  /\ V1header.Mac m h = mac mod 2 ^ 16
  /\ V1header.Net m h = net mod 2 ^ 16
  /\ V1header.Sec m h = sec mod 2 ^ 32
  /\ V1header.Usec m h = usec mod 2 ^ 32.
Proof.
  intros m h. subst m h.
  unfold V1header.Status, V1header.Len, V1header.Snaplen, V1header.Mac,
    V1header.Net, V1header.Sec, V1header.Usec, load64, load32, load16,
    mem_of_bytes, V1header_encode.
  cbn [V1header.addr].
  repeat apply conj.
  - change (le_bytes 8 status ++ ?r) with ([] ++ le_bytes 8 status ++ r).
    decode_field 0. reflexivity.
  - decode_field 0. reflexivity.
  - decode_field 1. reflexivity.
  - decode_field 2. reflexivity.
  - decode_field 3. reflexivity.
  - decode_field 4. reflexivity.
  - decode_field 5. reflexivity.
Qed.

Lemma V3_block_fields_decode a version to_priv bstatus num first blen seq
      next_offset sec nsec snaplen len status mac net rxhash tci tpid :
  let m := mem_of_bytes a
             (TpBlock_encode version to_priv bstatus num first blen seq
              ++ TpPacket_encode next_offset sec nsec snaplen len status mac
                                 net rxhash tci tpid) in
  let bh := TpBlock.Hdr a in
  let p := a + 48 in
  TpacketHdrV1.BlockStatus m bh = bstatus mod 2 ^ 32
  /\ TpacketHdrV1.NumPkts m bh = num mod 2 ^ 32
  /\ TpacketHdrV1.OffsetToFirstPkt m bh = first mod 2 ^ 32
  /\ TpPacket.TpNextOffset m p = next_offset mod 2 ^ 32
  /\ TpPacket.Tp_sec m p = sec mod 2 ^ 32
  /\ TpPacket.Tp_nsec m p = nsec mod 2 ^ 32
  /\ TpPacket.Tp_snaplen m p = snaplen mod 2 ^ 32
  /\ TpPacket.Tp_len m p = len mod 2 ^ 32
  /\ TpPacket.Tp_status m p = status mod 2 ^ 32
  /\ TpPacket.Tp_mac m p = mac mod 2 ^ 16
  /\ TpPacket.Tp_hv1_TpVlanTci m p = tci mod 2 ^ 32.
Proof.
  intros m bh p. subst m bh p.
  unfold TpacketHdrV1.BlockStatus, TpacketHdrV1.NumPkts,
    TpacketHdrV1.OffsetToFirstPkt, TpPacket.TpNextOffset, TpPacket.Tp_sec,
    TpPacket.Tp_nsec, TpPacket.Tp_snaplen, TpPacket.Tp_len, TpPacket.Tp_status,
    TpPacket.Tp_mac, TpPacket.Tp_hv1_TpVlanTci, TpBlock.Hdr, load32, load16,
    mem_of_bytes, TpBlock_encode, TpPacket_encode.
  rewrite <- !app_assoc.
  repeat apply conj.
  - decode_field 1. reflexivity.
  - decode_field 2. reflexivity.
  - decode_field 3. reflexivity.
  - decode_field 7. reflexivity.
  - decode_field 8. reflexivity.
  - decode_field 9. reflexivity.
  - decode_field 10. reflexivity.
  - decode_field 11. reflexivity.
  - decode_field 12. reflexivity.
  - decode_field 13. reflexivity.
  - decode_field 16. reflexivity.
Qed.

Lemma fits_mod bits v : fits bits v -> v mod 2 ^ bits = v.
Proof. intros H. apply Z.mod_small. exact H. Qed.

(** X16: a v2 frame header decodes to what was encoded.  Over memory that
    holds, at any address, the little-endian layout of a v2 header with given
    field values (each fitting its field), [getStatus] returns the status,
    [getLength] the wire length, [getTime] the instant sec * 10^9 + nsec, the
    field accessors the captured length, payload offset and TCI, and
    [getVLAN] returns -1 all the same. *)
Theorem V2header_decodes_encoded :
  forall a status len snaplen mac net sec nsec tci tpid,
    fits 32 status -> fits 32 len -> fits 32 snaplen -> fits 16 mac ->
    fits 32 sec -> fits 32 nsec -> fits 16 tci ->
    let m := mem_of_bytes a
               (V2header_encode status len snaplen mac net sec nsec tci tpid) in
    let h := V2header.at_ a in
    V2header.getStatus m h = status
    /\ V2header.getLength m h = len
    /\ V2header.Snaplen m h = snaplen
    /\ V2header.Mac m h = mac
    /\ V2header.VlanTci m h = tci
    /\ unixNano (V2header.getTime m h) = sec * 1000000000 + nsec
    /\ V2header.getVLAN m h = -1.
Proof.
  intros a status len snaplen mac net sec nsec tci tpid
         Hst Hlen Hsnap Hmac Hsec Hnsec Htci m h.
  destruct (V2header_fields_decode a status len snaplen mac net sec nsec tci tpid)
    as (Est & Elen & Esnap & Emac & _ & Esec & Ensec & Etci & _).
  fold m h in Est, Elen, Esnap, Emac, Esec, Ensec, Etci.
  rewrite fits_mod in Est, Elen, Esnap, Emac, Esec, Ensec, Etci by assumption.
  unfold fits in *.
  repeat split; try assumption.
  - unfold V2header.getStatus. rewrite Est. apply to_int_small. lia.
  - unfold V2header.getLength. rewrite Elen. apply to_int_small. lia.
  - unfold V2header.getTime. rewrite Esec, Ensec. apply unixNano_nsec; assumption.
Qed.

Lemma V2header_decodes_encoded_witness :
  let m := mem_of_bytes 4096
             (V2header_encode 0x11 1514 128 66 80 1700000000 999999999
                              0x2ABC 0x8100) in
  let h := V2header.at_ 4096 in
  V2header.getStatus m h = 0x11
  /\ V2header.getLength m h = 1514
  /\ V2header.Snaplen m h = 128
  /\ V2header.Mac m h = 66
  /\ V2header.VlanTci m h = 0x2ABC
  /\ unixNano (V2header.getTime m h) = 1700000000 * 1000000000 + 999999999
  /\ V2header.getVLAN m h = -1.
Proof.
  apply V2header_decodes_encoded; unfold fits; lia.
Defined.

(** X17: a v1 frame header decodes to what was encoded: over memory that
    holds the little-endian layout of a v1 header with given field values
    (the status below 2^63, the others fitting their fields), [getStatus]
    returns the status, [getLength] the wire length, [getTime] the instant
    sec * 10^9 + usec * 1000, and the accessors the captured length and the
    payload offset. *)
Theorem V1header_decodes_encoded :
  forall a status len snaplen mac net sec usec,
    fits 63 status -> fits 32 len -> fits 32 snaplen -> fits 16 mac ->
    fits 32 sec -> fits 32 usec ->
    let m := mem_of_bytes a
               (V1header_encode status len snaplen mac net sec usec) in
    let h := V1header.at_ a in
    V1header.getStatus m h = status
    /\ V1header.getLength m h = len
    /\ V1header.Snaplen m h = snaplen
    /\ V1header.Mac m h = mac
    /\ unixNano (V1header.getTime m h) = sec * 1000000000 + usec * 1000.
Proof.
  intros a status len snaplen mac net sec usec
         Hst Hlen Hsnap Hmac Hsec Husec m h.
  destruct (V1header_fields_decode a status len snaplen mac net sec usec)
    as (Est & Elen & Esnap & Emac & _ & Esec & Eusec).
  fold m h in Est, Elen, Esnap, Emac, Esec, Eusec.
  rewrite fits_mod in Elen, Esnap, Emac, Esec, Eusec by assumption.
  unfold fits in *. rewrite Z.mod_small in Est by lia.
  repeat split; try assumption.
  - unfold V1header.getStatus. rewrite Est. apply to_int_small. lia.
  - unfold V1header.getLength. rewrite Elen. apply to_int_small. lia.
  - unfold V1header.getTime. rewrite Esec, Eusec. apply unixNano_usec; assumption.
Qed.

Lemma V1header_decodes_encoded_witness :
  let m := mem_of_bytes 4096
             (V1header_encode 1 1514 128 66 80 1700000000 999999) in
  let h := V1header.at_ 4096 in
  V1header.getStatus m h = 1
  /\ V1header.getLength m h = 1514
  /\ V1header.Snaplen m h = 128
  /\ V1header.Mac m h = 66
  /\ unixNano (V1header.getTime m h) = 1700000000 * 1000000000 + 999999 * 1000.
Proof.
  apply V1header_decodes_encoded; unfold fits; lia.
Defined.

(** X18: a v3 block decodes to what was encoded.  Over memory that holds a
    block descriptor whose offset-to-first-packet field is 48, followed by a
    packet header, [initV3Wrapper] points the wrapper at that packet with the
    cursor at 0; [getStatus] returns the block status, [getLength] and
    [getTime] the first packet's wire length and instant, [getVLAN] the
    packet's TCI modulo 2^12 when bit 0x10 of the packet status is set and
    -1 otherwise; and after [clearStatus] the status reads 0 while the
    packet still decodes the same. *)
Theorem V3header_decodes_encoded :
  forall a version to_priv bstatus num blen seq
         next_offset sec nsec snaplen len status mac net rxhash tci tpid,
    mapped a ->
    fits 32 bstatus -> fits 32 num -> fits 32 sec -> fits 32 nsec ->
    fits 32 len -> fits 32 status -> fits 32 tci ->
    let m := mem_of_bytes a
               (TpBlock_encode version to_priv bstatus num 48 blen seq
                ++ TpPacket_encode next_offset sec nsec snaplen len status mac
                                   net rxhash tci tpid) in
    let w := V3header.initV3Wrapper m a in
    V3header.Packet w = a + 48
    /\ V3header.used w = 0
    /\ TpacketHdrV1.NumPkts m (V3header.Blockhdr w) = num
    /\ V3header.getStatus m w = bstatus
    /\ V3header.getLength m w = len
    /\ unixNano (V3header.getTime m w) = sec * 1000000000 + nsec
    /\ V3header.getVLAN m w
       = (if Z.land status 0x10 =? 0 then -1 else tci mod 4096)
    /\ V3header.getStatus (V3header.clearStatus m w) w = 0
    /\ V3header.getLength (V3header.clearStatus m w) w = len.
Proof.
  intros a version to_priv bstatus num blen seq
         next_offset sec nsec snaplen len status mac net rxhash tci tpid
         Hm Hbst Hnum Hsec Hnsec Hlen Hst Htci m w.
  destruct (V3_block_fields_decode a version to_priv bstatus num 48 blen seq
              next_offset sec nsec snaplen len status mac net rxhash tci tpid)
    as (Ebst & Enum & Efirst & _ & Esec & Ensec & _ & Elen & Est & _ & Etci).
  fold m in Ebst, Enum, Efirst, Esec, Ensec, Elen, Est, Etci.
  rewrite fits_mod in Ebst, Enum, Esec, Ensec, Elen, Est, Etci by assumption.
  change (48 mod 2 ^ 32) with 48 in Efirst.
  assert (Ep : V3header.Packet w = a + 48).
  { unfold w, V3header.initV3Wrapper. cbn [V3header.Packet]. rewrite Efirst.
    apply to_uintptr_field; [exact Hm|lia]. }
  assert (Eb : V3header.Blockhdr w = TpBlock.Hdr a) by reflexivity.
  unfold fits in *.
  split; [exact Ep|]. split; [reflexivity|]. split; [rewrite Eb; exact Enum|].
  split; [unfold V3header.getStatus; rewrite Eb, Ebst; apply to_int_small; lia|].
  split; [unfold V3header.getLength; rewrite Ep, Elen; apply to_int_small; lia|].
  split; [unfold V3header.getTime; rewrite Ep, Esec, Ensec;
          apply unixNano_nsec; assumption|].
  split.
  { rewrite V3header_getVLAN_cases, Ep, Est, Etci.
    change StatusVlanValid with 0x10.
    destruct (Z.land status 16 =? 0); [reflexivity|].
    change 0xfff with (Z.ones 12). rewrite Z.land_ones by lia. reflexivity. }
  split.
  { unfold V3header.getStatus, V3header.clearStatus, TpacketHdrV1.BlockStatus,
      load32, store32. rewrite load_store_le. reflexivity. }
  unfold V3header.getLength. rewrite Ep.
  unfold V3header.clearStatus, TpPacket.Tp_len, load32, store32.
  rewrite load_le_store_le_disjoint by (rewrite Eb; unfold TpBlock.Hdr; cbn; lia).
  fold (load32 m (a + 48 + 16)). fold (TpPacket.Tp_len m (a + 48)).
  rewrite Elen. apply to_int_small. lia.
Qed.

Lemma V3header_decodes_encoded_witness :
  let m := mem_of_bytes 4096
             (TpBlock_encode 1 0 1 2 48 4096 7
              ++ TpPacket_encode 64 1700000000 5 14 18 0x11 48 62 0 0x2ABC 0x8100) in
  let w := V3header.initV3Wrapper m 4096 in
  V3header.Packet w = 4096 + 48
  /\ V3header.used w = 0
  /\ TpacketHdrV1.NumPkts m (V3header.Blockhdr w) = 2
  /\ V3header.getStatus m w = 1
  /\ V3header.getLength m w = 18
  /\ unixNano (V3header.getTime m w) = 1700000000 * 1000000000 + 5
  /\ V3header.getVLAN m w = 0xABC
  /\ V3header.getStatus (V3header.clearStatus m w) w = 0
  /\ V3header.getLength (V3header.clearStatus m w) w = 18.
Proof.
  apply (V3header_decodes_encoded 4096 1 0 1 2 4096 7
           64 1700000000 5 14 18 0x11 48 62 0 0x2ABC 0x8100);
    unfold mapped, fits; lia.
Defined.
